(** * UKHASnet film canister node (fc-node3): wake cycle, packet encoder,
      battery monitor

    A shallow embedding of [fc-node3/firmware/main.c].  The globals of the
    firmware are the fields of a record, one pass through the body of the
    [while(1)] loop of [main] is the function [cycle_tick], and the calls
    into the hardware (ADC, temperature sensor, radio, delays, sleep) are
    recorded in a trace of events.  Writes into [packetbuf] are bounds
    checked: a write outside the 64 bytes of the buffer has no defined
    behaviour in C and makes the model return [None].

    Left out: the start-up sequence of [main] before the loop (watchdog,
    pins, the retries of [rf69_init]), the I/O registers, and the two
    interrupt handlers, which only wake the CPU up. *)

From Stdlib Require Import ZArith Ascii List Lia.
From stdpp Require Import base tactics option list strings.

Local Open Scope Z_scope.

(** ** Node configuration (the [#define]s at the top of main.c) *)

Definition NODE_ID : list ascii := ["J"; "H"; "9"]%char.
Definition HOPS : list ascii := ["1"]%char.
Definition WAKE_FREQ : Z := 5.
Definition TX_POWER_DBM : Z := 10.

Definition POWER_MODE_WDT_THRESH : Z := 1350.
Definition POWER_MODE_WDT_HYST : Z := 50.

(** Size of [static char packetbuf[64]]. *)
Definition PACKETBUF_SIZE : nat := 64.

(** [enum power_mode_t]; [NUM_POWER_MODES] is the count that closes the
    enumeration and is never stored in [power_mode]. *)
Inductive power_mode_t : Type :=
  | MODE_WDT
  | MODE_BOOSTOFF.

Definition power_mode_ord (m : power_mode_t) : Z :=
  match m with
  | MODE_WDT => 0
  | MODE_BOOSTOFF => 1
  end.

Definition NUM_POWER_MODES : Z := 2.

Definition power_mode_eqb (a b : power_mode_t) : bool :=
  match a, b with
  | MODE_WDT, MODE_WDT => true
  | MODE_BOOSTOFF, MODE_BOOSTOFF => true
  | _, _ => false
  end.

(** ** Machine integers *)

Definition uint8 (z : Z) : Z := z mod 2 ^ 8.
Definition uint16 (z : Z) : Z := z mod 2 ^ 16.
Definition uint32 (z : Z) : Z := z mod 2 ^ 32.

(** [c++] on a [char]: the byte pattern plus one, modulo 256. *)
Definition char_incr (c : ascii) : ascii :=
  ascii_of_N ((N_of_ascii c + 1) mod 256).

Definition NUL : ascii := Ascii.zero.

(** ** Battery monitor

    [get_batt_voltage]: [adc] is the value read from the 16-bit [ADC] data
    register once the conversion is done; [r] is a [uint32_t], so the
    product wraps at 2^32, and the result is cast to [uint16_t]. *)
Definition get_batt_voltage (adc : Z) : Z :=
  let r := uint32 adc in
  uint16 (uint32 (r * 3300) / 1024).

(** ** Decimal text *)

Definition digit_char (d : Z) : ascii := ascii_of_N (48 + Z.to_N d).

(** Least significant digit first; [fuel] bounds the number of digits. *)
Fixpoint dec_rev (fuel : nat) (v : Z) : list ascii :=
  match fuel with
  | O => []
  | S f =>
      digit_char (v mod 10) ::
      (if v / 10 =? 0 then [] else dec_rev f (v / 10))
  end.

(** The decimal digits of [v >= 0]; a number has no more decimal digits
    than binary ones. *)
Definition dec_digits (v : Z) : list ascii :=
  rev (dec_rev (S (Z.to_nat (Z.log2 v))) v).

(** [utoa(value, s, 10)]: the text written at [s] (before the NUL); the
    argument is an [unsigned int], 16 bits wide on the AVR. *)
Definition utoa (v : Z) : list ascii := dec_digits (uint16 v).

(** Modelled from the spec: [dtostrf] belongs to avr-libc and the value it
    prints is a [float] obtained from the DS18B20 driver; neither is part of
    the sources.  The temperature is taken in tenths of a degree, the
    precision [get_temperature] documents, and [dtostrf(t, 1, 1, p)] writes
    it in the wire format [<sign><int>.<frac>] with one fractional digit and
    no padding. *)
Definition dtostrf_1_1 (t : Z) : list ascii :=
  (if t <? 0 then ["-"%char] else []) ++
  dec_digits (Z.abs t / 10) ++ ["."%char] ++ [digit_char (Z.abs t mod 10)].

(** The number a digit string stands for, least significant digit first. *)
Definition digit_value (c : ascii) : Z := Z.of_N (N_of_ascii c) - 48.

Fixpoint dec_value_rev (l : list ascii) : Z :=
  match l with
  | [] => 0
  | c :: l' => digit_value c + 10 * dec_value_rev l'
  end.

(** ** Globals of main.c *)

Record state : Type := mkState {
  seqid : ascii;
  wakes : Z;
  packetbuf : list ascii;
  p : nat;              (* [char *p], as an offset into [packetbuf] *)
  batt_mv : Z;
  power_mode : power_mode_t
}.

Definition initial_state : state :=
  {| seqid := "a"%char;
     wakes := WAKE_FREQ;
     packetbuf := replicate PACKETBUF_SIZE NUL;
     p := 0%nat;
     batt_mv := 0;
     power_mode := MODE_BOOSTOFF |}.

(** What the hardware delivers during one pass of the loop: the ADC
    conversion result and the temperature (tenths of a degree). *)
Record input : Type := mkInput {
  adc : Z;
  temperature : Z
}.

(** Calls that leave the main sequence. *)
Inductive event : Type :=
  | Call_get_batt_voltage (mv : Z)
  | Call_get_temperature (t : Z)
  | Call_rf69_send (data : list ascii) (len : nat) (power : Z)
  | Call_delay_ms (ms : Z)
  | Sleep_INT0
  | Sleep_WDTO_8S.

(** ** The monad of the main sequence: state, failure, trace *)

Definition M (A : Type) : Type := state -> option (A * state * list event).

Definition ret {A} (a : A) : M A := fun s => Some (a, s, []).

Definition bind {A B} (m : M A) (k : A -> M B) : M B :=
  fun s =>
    match m s with
    | None => None
    | Some (a, s1, t1) =>
        match k a s1 with
        | None => None
        | Some (b, s2, t2) => Some (b, s2, t1 ++ t2)
        end
    end.

Declare Scope fw_scope.
Delimit Scope fw_scope with fw.
Notation "x <- m ;; k" := (bind m (fun x => k))
  (at level 100, m at next level, right associativity) : fw_scope.
Notation "m ;; k" := (bind m (fun _ => k))
  (at level 100, right associativity) : fw_scope.
Local Open Scope fw_scope.

Definition gets {A} (f : state -> A) : M A := fun s => Some (f s, s, []).
Definition modify (f : state -> state) : M unit := fun s => Some (tt, f s, []).
Definition emit (e : event) : M unit := fun s => Some (tt, s, [e]).

Definition set_seqid (c : ascii) (s : state) : state :=
  mkState c (wakes s) (packetbuf s) (p s) (batt_mv s) (power_mode s).
Definition set_wakes (w : Z) (s : state) : state :=
  mkState (seqid s) w (packetbuf s) (p s) (batt_mv s) (power_mode s).
Definition set_packetbuf (b : list ascii) (s : state) : state :=
  mkState (seqid s) (wakes s) b (p s) (batt_mv s) (power_mode s).
Definition set_p (o : nat) (s : state) : state :=
  mkState (seqid s) (wakes s) (packetbuf s) o (batt_mv s) (power_mode s).
Definition set_batt_mv (v : Z) (s : state) : state :=
  mkState (seqid s) (wakes s) (packetbuf s) (p s) v (power_mode s).
Definition set_power_mode (m : power_mode_t) (s : state) : state :=
  mkState (seqid s) (wakes s) (packetbuf s) (p s) (batt_mv s) m.

(** ** Accesses to [packetbuf] *)

(** A store of one [char] at offset [i]. *)
Definition poke (buf : list ascii) (i : nat) (c : ascii) : option (list ascii) :=
  if (i <? length buf)%nat then Some (<[i:=c]> buf) else None.

(** The characters of [s] followed by the terminating NUL, from offset [i]
    on: what [strcpy], [utoa] and [dtostrf] leave at their destination. *)
Fixpoint write_cstr (buf : list ascii) (i : nat) (s : list ascii)
  : option (list ascii) :=
  match s with
  | [] => poke buf i NUL
  | c :: s' =>
      match poke buf i c with
      | Some buf' => write_cstr buf' (S i) s'
      | None => None
      end
  end.

(** [strlen] on the bytes from a pointer on: [None] when no NUL is met
    before the end of the buffer. *)
Fixpoint cstrlen (l : list ascii) : option nat :=
  match l with
  | [] => None
  | c :: l' =>
      if Ascii.eqb c NUL then Some O
      else match cstrlen l' with
           | Some n => Some (S n)
           | None => None
           end
  end.

Definition strlen_at (buf : list ascii) (i : nat) : option nat :=
  cstrlen (drop i buf).

(** [*p++ = c;] *)
Definition put_char (c : ascii) : M unit :=
  fun s =>
    match poke (packetbuf s) (p s) c with
    | Some buf => Some (tt, set_p (S (p s)) (set_packetbuf buf s), [])
    | None => None
    end.

(** [*p = c;] *)
Definition store_char (c : ascii) : M unit :=
  fun s =>
    match poke (packetbuf s) (p s) c with
    | Some buf => Some (tt, set_packetbuf buf s, [])
    | None => None
    end.

(** [strcpy(p, str);], [utoa(v, p, 10);] and [dtostrf(t, 1, 1, p);] once the
    text is known. *)
Definition write_at_p (str : list ascii) : M unit :=
  fun s =>
    match write_cstr (packetbuf s) (p s) str with
    | Some buf => Some (tt, set_packetbuf buf s, [])
    | None => None
    end.

(** [p += strlen(p);] *)
Definition p_add_strlen : M unit :=
  fun s =>
    match strlen_at (packetbuf s) (p s) with
    | Some n => Some (tt, set_p (p s + n)%nat s, [])
    | None => None
    end.

(** [strlen(packetbuf)] *)
Definition strlen_packetbuf : M nat :=
  fun s =>
    match strlen_at (packetbuf s) 0 with
    | Some n => Some (n, s, [])
    | None => None
    end.

(** The two sampling functions, as seen from [main]. *)
Definition call_get_batt_voltage (i : input) : M Z :=
  let mv := get_batt_voltage (adc i) in
  emit (Call_get_batt_voltage mv) ;; ret mv.

Definition call_get_temperature (i : input) : M Z :=
  emit (Call_get_temperature (temperature i)) ;; ret (temperature i).

(** ** The main loop *)

(** The body of a C [for] loop that runs [n] times. *)
Fixpoint repeat_m (n : nat) (body : M unit) : M unit :=
  match n with
  | O => ret tt
  | S n' => body ;; repeat_m n' body
  end.

(** Lines 137-176: the packet is composed in [packetbuf]. *)
Definition compose_packet (i : input) : M unit :=
  (* p = packetbuf; *)
  modify (set_p 0) ;;
  (* strcpy(p, HOPS); p += strlen(p); *)
  write_at_p HOPS ;; p_add_strlen ;;
  (* *p++ = seqid; *)
  c <- gets seqid ;;
  put_char c ;;
  (* *p++ = 'V'; batt_mv = get_batt_voltage(); utoa(batt_mv, p, 10); *)
  put_char "V" ;;
  mv <- call_get_batt_voltage i ;;
  modify (set_batt_mv mv) ;;
  write_at_p (utoa mv) ;; p_add_strlen ;;
  (* *p++ = 'T'; dtostrf(get_temperature(), 1, 1, p); *)
  put_char "T" ;;
  t <- call_get_temperature i ;;
  write_at_p (dtostrf_1_1 t) ;; p_add_strlen ;;
  (* the custom field Xa,b,c *)
  put_char "X" ;;
  write_at_p (utoa WAKE_FREQ) ;; p_add_strlen ;;
  put_char "," ;;
  write_at_p (utoa TX_POWER_DBM) ;; p_add_strlen ;;
  put_char "," ;;
  m <- gets power_mode ;;
  write_at_p (utoa (power_mode_ord m)) ;; p_add_strlen ;;
  (* the node id in [] *)
  put_char "[" ;;
  write_at_p NODE_ID ;; p_add_strlen ;;
  put_char "]" ;;
  (* *p = '\0'; *)
  store_char NUL.

(** Lines 189-193: the sequence id for the next packet. *)
Definition next_seqid (c : ascii) : ascii :=
  if Ascii.eqb c "z" then "b"%char else char_incr c.

(** Lines 195-204: the power mode after a sample of [mv] millivolts. *)
Definition update_power_mode (m : power_mode_t) (mv : Z) : power_mode_t :=
  if power_mode_eqb m MODE_BOOSTOFF && (mv <? POWER_MODE_WDT_THRESH) then
    MODE_WDT
  else if power_mode_eqb m MODE_WDT
          && (mv >? POWER_MODE_WDT_THRESH + POWER_MODE_WDT_HYST) then
    MODE_BOOSTOFF
  else m.

(** Lines 123-205: the branch taken when [wakes == WAKE_FREQ]. *)
Definition transmit_cycle (i : input) : M unit :=
  compose_packet i ;;
  (* rf69_send((uint8_t* )packetbuf, strlen(packetbuf), TX_POWER_DBM); *)
  n <- strlen_packetbuf ;;
  buf <- gets packetbuf ;;
  emit (Call_rf69_send (take n buf) n TX_POWER_DBM) ;;
  emit (Call_delay_ms 10) ;;
  (* wakes = 1; *)
  modify (set_wakes 1) ;;
  c <- gets seqid ;;
  modify (set_seqid (next_seqid c)) ;;
  m <- gets power_mode ;;
  mv <- gets batt_mv ;;
  modify (set_power_mode (update_power_mode m mv)).

(** Lines 212-244: back to sleep, the way [power_mode] says. *)
Definition go_to_sleep : M unit :=
  m <- gets power_mode ;;
  if power_mode_eqb m MODE_BOOSTOFF then
    emit Sleep_INT0 ;;
    emit (Call_delay_ms 50)
  else
    repeat_m 8 (emit Sleep_WDTO_8S).

(** One pass through the body of [while(1)] in [main]. *)
Definition cycle_tick (i : input) : M unit :=
  w <- gets wakes ;;
  (if w =? WAKE_FREQ then
     transmit_cycle i
   else
     (* wakes++; *)
     modify (set_wakes (uint8 (w + 1)))) ;;
  go_to_sleep.

(** Consecutive passes, one input per pass; the trace of each pass is kept
    apart, so that the passes can be numbered. *)
Fixpoint run (inputs : list input) (s : state)
  : option (state * list (list event)) :=
  match inputs with
  | [] => Some (s, [])
  | i :: rest =>
      match cycle_tick i s with
      | None => None
      | Some (_, s1, t) =>
          match run rest s1 with
          | None => None
          | Some (s2, ts) => Some (s2, t :: ts)
          end
      end
  end.

(** ** Reading a trace *)

Definition is_send (e : event) : bool :=
  match e with Call_rf69_send _ _ _ => true | _ => false end.
Definition is_batt_sample (e : event) : bool :=
  match e with Call_get_batt_voltage _ => true | _ => false end.
Definition is_temp_sample (e : event) : bool :=
  match e with Call_get_temperature _ => true | _ => false end.

Fixpoint count_events (f : event -> bool) (t : list event) : nat :=
  match t with
  | [] => O
  | e :: t' => ((if f e then 1 else 0) + count_events f t')%nat
  end.

(** The packets handed to the radio, in order. *)
Fixpoint sent_packets (t : list event) : list (list ascii) :=
  match t with
  | [] => []
  | Call_rf69_send data _ _ :: t' => data :: sent_packets t'
  | _ :: t' => sent_packets t'
  end.

(** The text of a packet, field by field, as the comment in [main]
    describes it: [<HOPS><SEQID>VxxxxTyy.yXa,b,c[<NODEID>]]. *)
Definition packet_text (c : ascii) (mv t : Z) (m : power_mode_t) : list ascii :=
  HOPS ++ [c] ++ ["V"%char] ++ utoa mv ++ ["T"%char] ++ dtostrf_1_1 t ++
  ["X"%char] ++ utoa WAKE_FREQ ++ [","%char] ++ utoa TX_POWER_DBM ++
  [","%char] ++ utoa (power_mode_ord m) ++
  ["["%char] ++ NODE_ID ++ ["]"%char].

(** The C string that starts a list of bytes. *)
Fixpoint until_nul (l : list ascii) : list ascii :=
  match l with
  | [] => []
  | c :: l' => if Ascii.eqb c NUL then [] else c :: until_nul l'
  end.

Definition nul_free (l : list ascii) : Prop := Forall (fun c => c <> NUL) l.

(** The packet the encoder leaves in [packetbuf], read as [rf69_send] is
    told to read it: [strlen(packetbuf)] bytes from the start. *)
Definition encode_packet (i : input) (s : state) : option (list ascii) :=
  match compose_packet i s with
  | Some (_, s', _) =>
      match strlen_at (packetbuf s') 0 with
      | Some n => Some (take n (packetbuf s'))
      | None => None
      end
  | None => None
  end.

(** The sequence id a packet carries: the byte after the hop count. *)
Definition packet_seqid (pkt : list ascii) : option ascii :=
  pkt !! length HOPS.

(** The events of the sleep that ends a pass. *)
Definition sleep_trace (m : power_mode_t) : list event :=
  match m with
  | MODE_BOOSTOFF => [Sleep_INT0; Call_delay_ms 50]
  | MODE_WDT => replicate 8 Sleep_WDTO_8S
  end.

(** ** Predicates of the statements *)

(** [packetbuf] is an array of 64 [char]. *)
Definition wf_state (s : state) : Prop :=
  length (packetbuf s) = PACKETBUF_SIZE.

(** The fields around the temperature take at most 21 bytes and the
    terminator one more: a temperature text of up to 42 bytes fits. *)
Definition TEMP_TEXT_ROOM : nat := 42.

Definition temp_fits (t : Z) : Prop :=
  (length (dtostrf_1_1 t) <= TEMP_TEXT_ROOM)%nat.

Definition input_ok (i : input) : Prop := temp_fits (temperature i).

(** The field width of the temperature: three digits, a sign and the
    decimal point. *)
Definition TEMP_FIELD_WIDTH : nat := 5.

(** The invariant of the wake counter. *)
Definition wakes_in_range (s : state) : Prop := 1 <= wakes s <= WAKE_FREQ.

Definition lowercase (c : ascii) : Prop :=
  (97 <= nat_of_ascii c <= 122)%nat.

(** The sequence id of the [n]-th packet after power-on, counted from 0:
    ['a'] once, then ['b'] to ['z'] round and round. *)
Definition nth_seqid (n : nat) : ascii :=
  match n with
  | O => "a"%char
  | S k => ascii_of_nat (98 + k mod 25)
  end.

(** How many packets each of [n] passes sends when the wake counter
    is [w] before the first of them. *)
Fixpoint wake_schedule (n : nat) (w : Z) : list nat :=
  match n with
  | O => []
  | S n' =>
      if w =? WAKE_FREQ then 1%nat :: wake_schedule n' 1
      else 0%nat :: wake_schedule n' (uint8 (w + 1))
  end.

(** The positions, counted from [k], of the passes that send something,
    given how many packets each pass sends. *)
Fixpoint ticks_with_send (k : nat) (counts : list nat) : list nat :=
  match counts with
  | [] => []
  | c :: rest =>
      if (c =? 0)%nat then ticks_with_send (S k) rest
      else k :: ticks_with_send (S k) rest
  end.

(** The passes of a run that send a packet; the first pass is number 1. *)
Definition transmit_ticks (ts : list (list event)) : list nat :=
  ticks_with_send 1 (map (count_events is_send) ts).

(** ** The encoder of the nodes without the custom field

    The older node firmware composes [<HOPS><SEQID>V<mv>T<dec>.<frac>[<NODEID>]]
    with [sprintf]; [HOPS] and [NODE_ID] differ from node to node and are
    parameters here.  [temp_dec] and [temp_frac] are the two [int8_t] that
    its [get_temperature] hands back. *)

(** [%d] of [sprintf]. *)
Definition itoa (z : Z) : list ascii :=
  if z <? 0 then "-"%char :: dec_digits (- z) else dec_digits z.

Definition compose_packet_basic (hops node_id : list ascii)
    (i : input) (temp_dec temp_frac : Z) : M unit :=
  modify (set_p 0) ;;
  write_at_p hops ;; p_add_strlen ;;
  (* sprintf(p, "%c", seqid); *)
  c <- gets seqid ;;
  write_at_p [c] ;; p_add_strlen ;;
  (* sprintf(p, "V%u", get_batt_voltage()); *)
  mv <- call_get_batt_voltage i ;;
  write_at_p ("V"%char :: utoa mv) ;; p_add_strlen ;;
  (* sprintf(p, "T%d.%d", temp_dec, temp_frac); *)
  write_at_p ("T"%char :: itoa temp_dec ++ "."%char :: itoa temp_frac) ;;
  p_add_strlen ;;
  put_char "[" ;;
  write_at_p node_id ;; p_add_strlen ;;
  put_char "]" ;;
  store_char NUL.

Definition encode_packet_basic (hops node_id : list ascii)
    (i : input) (temp_dec temp_frac : Z) (s : state) : option (list ascii) :=
  match compose_packet_basic hops node_id i temp_dec temp_frac s with
  | Some (_, s', _) =>
      match strlen_at (packetbuf s') 0 with
      | Some n => Some (take n (packetbuf s'))
      | None => None
      end
  | None => None
  end.

(** ** Reasoning about the main sequence *)

(** [m] started in [s] returns, and what it returns satisfies [Q]. *)
Definition runs_to {A} (m : M A) (s : state)
    (Q : A -> state -> list event -> Prop) : Prop :=
  exists a s' t, m s = Some (a, s', t) /\ Q a s' t.

(** The globals other than the buffer and its pointer are untouched. *)
Definition frame (s s' : state) : Prop :=
  seqid s' = seqid s /\ wakes s' = wakes s /\
  batt_mv s' = batt_mv s /\ power_mode s' = power_mode s.

(** [p] points just after [pre], which is what the buffer starts with. *)
Definition holds (s : state) (pre : list ascii) : Prop :=
  p s = length pre /\ length (packetbuf s) = PACKETBUF_SIZE /\
  take (length pre) (packetbuf s) = pre.

(** [str] and its NUL have been written at [p], and [p] has not moved. *)
Definition pending (s : state) (pre str : list ascii) : Prop :=
  p s = length pre /\ length (packetbuf s) = PACKETBUF_SIZE /\
  take (length pre + length str + 1) (packetbuf s) = pre ++ str ++ [NUL].

(** [m] started in [s] returns exactly when [B] holds, and what it returns
    then satisfies [Q]. *)
Definition decides {A} (m : M A) (s : state) (B : Prop)
    (Q : A -> state -> list event -> Prop) : Prop :=
  (B -> exists a s' t, m s = Some (a, s', t) /\ Q a s' t) /\
  (m s <> None -> B).

(** A decimal digit. *)
Definition is_decimal (c : ascii) : Prop :=
  exists d, 0 <= d < 10 /\ c = digit_char d.

(** ** More ways to read a trace *)

Definition is_int0_sleep (e : event) : bool :=
  match e with Sleep_INT0 => true | _ => false end.
Definition is_wdt_sleep (e : event) : bool :=
  match e with Sleep_WDTO_8S => true | _ => false end.

(** [wake_schedule] for a node whose [WAKE_FREQ] is [wf]. *)
Fixpoint wake_schedule_for (wf : Z) (n : nat) (w : Z) : list nat :=
  match n with
  | O => []
  | S n' =>
      if w =? wf then 1%nat :: wake_schedule_for wf n' 1
      else 0%nat :: wake_schedule_for wf n' (uint8 (w + 1))
  end.

(** The range of an [int8_t]. *)
Definition int8_range (z : Z) : Prop := -128 <= z <= 127.

(** ** The older nodes ("scraper" nodes)

    Their main loop is the one of fc-node3 without the power mode: the
    packet is composed with [sprintf] ([compose_packet_basic]) and every
    pass ends with the same sleep.  [HOPS], [NODE_ID], [WAKE_FREQ] and the
    transmit power are the [#define]s that change from node to node;
    [USE_VDETECT] is the compile-time switch between the sleep on the
    voltage detector and the sleep on the watchdog. *)
Module Scraper.

(** What one pass reads: the ADC result and the two [int8_t] that
    [get_temperature] stores through its pointers. *)
Record reading : Type := mkReading {
  r_adc : Z;
  temp_dec : Z;
  temp_frac : Z
}.

Section Config.
Variables (HOPS NODE_ID : list ascii).
Variables (WAKE_FREQ TX_POWER_DBM : Z).
Variable USE_VDETECT : bool.

(** [static uint8_t wakes = WAKE_FREQ;] *)
Definition initial_state : state :=
  {| seqid := "a"%char;
     wakes := uint8 WAKE_FREQ;
     packetbuf := replicate PACKETBUF_SIZE NUL;
     p := 0%nat;
     batt_mv := 0;
     power_mode := MODE_BOOSTOFF |}.

(** The branch taken when [wakes == WAKE_FREQ]; this encoder reads only
    the ADC result from the [input] it is given, and the call of
    [get_temperature] leaves no event of its own: its two results are part
    of the reading. *)
Definition transmit_cycle (r : reading) : M unit :=
  compose_packet_basic HOPS NODE_ID (mkInput (r_adc r) 0)
                       (temp_dec r) (temp_frac r) ;;
  n <- strlen_packetbuf ;;
  buf <- gets packetbuf ;;
  emit (Call_rf69_send (take n buf) n TX_POWER_DBM) ;;
  emit (Call_delay_ms 10) ;;
  modify (set_wakes 1) ;;
  c <- gets seqid ;;
  modify (set_seqid (next_seqid c)).

Definition go_to_sleep : M unit :=
  if USE_VDETECT then
    emit Sleep_INT0 ;;
    emit (Call_delay_ms 50)
  else
    emit Sleep_WDTO_8S.

(** One pass through the body of [while(1)]. *)
Definition cycle_tick (r : reading) : M unit :=
  w <- gets wakes ;;
  (if w =? WAKE_FREQ then
     transmit_cycle r
   else
     modify (set_wakes (uint8 (w + 1)))) ;;
  go_to_sleep.

Fixpoint run (readings : list reading) (s : state)
  : option (state * list (list event)) :=
  match readings with
  | [] => Some (s, [])
  | r :: rest =>
      match cycle_tick r s with
      | None => None
      | Some (_, s1, t) =>
          match run rest s1 with
          | None => None
          | Some (s2, ts) => Some (s2, t :: ts)
          end
      end
  end.

(** The text of a packet of these nodes, field by field. *)
Definition packet_text (c : ascii) (mv dec frac : Z) : list ascii :=
  HOPS ++ [c] ++ ["V"%char] ++ utoa mv ++ ["T"%char] ++ itoa dec ++
  ["."%char] ++ itoa frac ++ ["["%char] ++ NODE_ID ++ ["]"%char].

Definition reading_ok (r : reading) : Prop :=
  int8_range (temp_dec r) /\ int8_range (temp_frac r).

(** The configuration leaves room in the buffer and its texts are
    C strings. *)
Definition config_ok : Prop :=
  nul_free HOPS /\ nul_free NODE_ID /\
  (length HOPS + length NODE_ID <= 44)%nat.
End Config.

End Scraper.

(** ** The pins of port A and the external interrupt

    [EN_DDR] and [DS18B20_VDD_DDR] are both [DDRA], [EN_PORT] and
    [DS18B20_VDD_PORT] are both [PORTA]: the regulator enable (pin 3) and
    the supply of the temperature sensor (pin 7) share their registers.
    Registers are 8 bits wide. *)
Module Pins.

Definition BV (n : Z) : Z := Z.shiftl 1 n.

Definition EN_PIN : Z := 3.
Definition DS18B20_VDD_PIN : Z := 7.

(** [reg |= mask;] and [reg &= ~mask;] on an 8-bit register. *)
Definition reg_or (reg mask : Z) : Z := uint8 (Z.lor reg mask).
Definition reg_and_not (reg mask : Z) : Z := uint8 (Z.land reg (Z.lnot mask)).

Record ports : Type := mkPorts {
  DDRA : Z;
  PORTA : Z;
  GIMSK : Z
}.

Definition ports_ok (io : ports) : Prop :=
  0 <= DDRA io < 256 /\ 0 <= PORTA io < 256 /\ 0 <= GIMSK io < 256.

(** [#define REG_ENABLE() do { EN_DDR &= ~_BV(EN_PIN); } while(0)] *)
Definition REG_ENABLE (io : ports) : ports :=
  mkPorts (reg_and_not (DDRA io) (BV EN_PIN)) (PORTA io) (GIMSK io).

(** [#define REG_DISABLE() do { EN_DDR |= _BV(EN_PIN); } while(0)] *)
Definition REG_DISABLE (io : ports) : ports :=
  mkPorts (reg_or (DDRA io) (BV EN_PIN)) (PORTA io) (GIMSK io).

(** [ISR(EXT_INT0_vect)] *)
Definition EXT_INT0_vect (io : ports) : ports := REG_ENABLE io.

(** Lines 97-108 of [main]: the pins are set up before the radio is.
    ([MCUCR] is left out.) *)
Definition pin_setup (io : ports) : ports :=
  (* EN_PORT &= ~_BV(EN_PIN); *)
  let io1 := mkPorts (DDRA io) (reg_and_not (PORTA io) (BV EN_PIN)) (GIMSK io) in
  let io2 := REG_ENABLE io1 in
  (* DS18B20_VDD_DDR |= _BV(DS18B20_VDD_PIN); *)
  let io3 := mkPorts (reg_or (DDRA io2) (BV DS18B20_VDD_PIN)) (PORTA io2)
                     (GIMSK io2) in
  (* DS18B20_VDD_PORT &= ~_BV(DS18B20_VDD_PIN); *)
  mkPorts (DDRA io3) (reg_and_not (PORTA io3) (BV DS18B20_VDD_PIN)) (GIMSK io3).

(** Lines 215-228 of [main], the sleep of [MODE_BOOSTOFF], as far as
    [DDRA] and [GIMSK] go.  [INT0] is the number of the enable bit in
    [GIMSK], which the device header gives.  The interrupt is level
    triggered: its handler runs [during] times while the CPU sleeps, and
    may already have run [before] times between the moment it is unmasked
    and the moment the regulator is switched off. *)
Definition sleep_boostoff (INT0 : Z) (before during : nat) (io : ports) : ports :=
  (* GIMSK |= _BV(INT0); *)
  let io1 := mkPorts (DDRA io) (PORTA io) (reg_or (GIMSK io) (BV INT0)) in
  let io2 := Nat.iter before EXT_INT0_vect io1 in
  (* REG_DISABLE(); sei(); sleep_cpu(); *)
  let io3 := REG_DISABLE io2 in
  let io4 := Nat.iter during EXT_INT0_vect io3 in
  (* cli(); GIMSK = 0x00; *)
  mkPorts (DDRA io4) (PORTA io4) 0.

(** fc-node2, whose [main] only sleeps: the set-up of the enable pin before
    the loop ([PORTA &= ~_BV(EN_PIN); REG_ENABLE();]) and the passes of its
    loop, each of them the same sleep as above followed by a delay.  One
    pair of [isr] gives the runs of the interrupt handler on one pass.
    ([MCUCR] and [PRR] are left out.) *)
Definition node2_setup (io : ports) : ports :=
  REG_ENABLE (mkPorts (DDRA io) (reg_and_not (PORTA io) (BV EN_PIN)) (GIMSK io)).

Fixpoint node2_loop (INT0 : Z) (isr : list (nat * nat)) (io : ports) : ports :=
  match isr with
  | [] => io
  | (before, during) :: rest =>
      node2_loop INT0 rest (sleep_boostoff INT0 before during io)
  end.

End Pins.

(** * Proofs *)

(** ** Machine integers and decimal text *)

Lemma digit_char_not_nul d : 0 <= d < 10 -> digit_char d <> NUL.
Proof.
  intros Hd.
  assert (d = 0 \/ d = 1 \/ d = 2 \/ d = 3 \/ d = 4 \/ d = 5 \/ d = 6 \/
          d = 7 \/ d = 8 \/ d = 9) as Hc by lia.
  repeat (destruct Hc as [-> | Hc]); try subst d; discriminate.
Qed.

Lemma digit_value_char d : 0 <= d < 10 -> digit_value (digit_char d) = d.
Proof.
  intros Hd.
  assert (d = 0 \/ d = 1 \/ d = 2 \/ d = 3 \/ d = 4 \/ d = 5 \/ d = 6 \/
          d = 7 \/ d = 8 \/ d = 9) as Hc by lia.
  repeat (destruct Hc as [-> | Hc]); try subst d; reflexivity.
Qed.

(** With enough fuel the digits are those of [v]. *)
Lemma dec_rev_value fuel : forall v,
  0 <= v < 10 ^ Z.of_nat fuel -> dec_value_rev (dec_rev fuel v) = v.
Proof.
  induction fuel as [|f IH]; intros v Hv.
  - change (10 ^ Z.of_nat 0) with 1 in Hv. simpl. lia.
  - rewrite Nat2Z.inj_succ, Z.pow_succ_r in Hv by lia.
    cbn [dec_rev dec_value_rev].
    rewrite digit_value_char by (apply Z.mod_pos_bound; lia).
    pose proof (Z.div_mod v 10 ltac:(lia)) as Hdm.
    destruct (Z.eqb_spec (v / 10) 0) as [E|E].
    + simpl. lia.
    + rewrite IH; [lia|].
      split; [apply Z.div_pos; lia|apply Z.div_lt_upper_bound; lia].
Qed.

Lemma dec_digits_value v :
  0 <= v -> dec_value_rev (rev (dec_digits v)) = v.
Proof.
  intros Hv. unfold dec_digits. rewrite rev_involutive.
  apply dec_rev_value. split; [exact Hv|].
  destruct (Z.eq_dec v 0) as [->|Hnz]; [reflexivity|].
  pose proof (Z.log2_spec v ltac:(lia)) as [_ Hlt].
  pose proof (Z.log2_nonneg v) as Hl.
  rewrite Nat2Z.inj_succ, Z2Nat.id by lia.
  eapply Z.lt_le_trans; [exact Hlt|].
  apply Z.pow_le_mono_l. lia.
Qed.

Lemma dec_rev_nul_free fuel v : 0 <= v -> nul_free (dec_rev fuel v).
Proof.
  revert v. induction fuel as [|f IH]; intros v Hv; simpl.
  - constructor.
  - constructor.
    + apply digit_char_not_nul. apply Z.mod_pos_bound. lia.
    + destruct (v / 10 =? 0); [constructor|].
      apply IH. apply Z.div_pos; lia.
Qed.

Lemma dec_digits_nul_free v : 0 <= v -> nul_free (dec_digits v).
Proof.
  intros Hv. unfold dec_digits, nul_free.
  apply List.Forall_rev. now apply dec_rev_nul_free.
Qed.

Lemma dec_rev_length_le k : forall fuel v,
  0 <= v < 10 ^ Z.of_nat (S k) -> (length (dec_rev fuel v) <= S k)%nat.
Proof.
  induction k as [|k IH]; intros fuel v Hv.
  - destruct fuel as [|f]; simpl; [lia|].
    change (10 ^ Z.of_nat 1) with 10 in Hv.
    rewrite Z.div_small by lia. simpl. lia.
  - destruct fuel as [|f]; simpl; [lia|].
    destruct (v / 10 =? 0); simpl; [lia|].
    apply le_n_S. apply IH.
    replace (10 ^ Z.of_nat (S (S k))) with (10 * 10 ^ Z.of_nat (S k)) in Hv.
    + split; [apply Z.div_pos; lia|].
      apply Z.div_lt_upper_bound; lia.
    + rewrite (Nat2Z.inj_succ (S k)), Z.pow_succ_r by lia. reflexivity.
Qed.

Lemma dec_digits_length_le k v :
  0 <= v < 10 ^ Z.of_nat (S k) -> (length (dec_digits v) <= S k)%nat.
Proof.
  intros Hv. unfold dec_digits. rewrite length_rev.
  now apply dec_rev_length_le.
Qed.

Lemma uint16_range z : 0 <= uint16 z < 65536.
Proof. unfold uint16. apply Z.mod_pos_bound. reflexivity. Qed.

Lemma utoa_nul_free v : nul_free (utoa v).
Proof. apply dec_digits_nul_free. apply uint16_range. Qed.

Lemma utoa_length v : (length (utoa v) <= 5)%nat.
Proof.
  apply (dec_digits_length_le 4). pose proof (uint16_range v) as H.
  change (10 ^ Z.of_nat 5) with 100000. lia.
Qed.

Lemma dtostrf_nul_free t : nul_free (dtostrf_1_1 t).
Proof.
  unfold dtostrf_1_1, nul_free.
  apply Forall_app_2; [|apply Forall_app_2; [|apply Forall_app_2]].
  - destruct (t <? 0); repeat constructor. discriminate.
  - apply dec_digits_nul_free. apply Z.div_pos; lia.
  - repeat constructor. discriminate.
  - repeat constructor. apply digit_char_not_nul. apply Z.mod_pos_bound. lia.
Qed.

Example get_batt_voltage_987 : get_batt_voltage 987 = 3180.
Proof. reflexivity. Qed.

Example utoa_samples :
  utoa 0 = String.list_ascii_of_string "0" /\
  utoa 3180 = String.list_ascii_of_string "3180" /\
  utoa 65535 = String.list_ascii_of_string "65535".
Proof. repeat split. Qed.

Example dtostrf_samples :
  dtostrf_1_1 214 = String.list_ascii_of_string "21.4" /\
  dtostrf_1_1 (-53) = String.list_ascii_of_string "-5.3" /\
  dtostrf_1_1 5 = String.list_ascii_of_string "0.5" /\
  dtostrf_1_1 1250 = String.list_ascii_of_string "125.0".
Proof. repeat split. Qed.

(** ** Stores into and reads from the buffer *)

Lemma poke_app pre r rest c :
  poke (pre ++ r :: rest) (length pre) c = Some (pre ++ c :: rest).
Proof.
  unfold poke.
  assert (length pre < length (pre ++ r :: rest))%nat as Hlt
    by (rewrite length_app; simpl; lia).
  apply Nat.ltb_lt in Hlt. rewrite Hlt. f_equal.
  rewrite insert_app_r_alt by lia.
  now rewrite Nat.sub_diag.
Qed.

Lemma write_cstr_app str : forall pre rest,
  (length str < length rest)%nat ->
  write_cstr (pre ++ rest) (length pre) str =
  Some (pre ++ str ++ NUL :: drop (S (length str)) rest).
Proof.
  induction str as [|c str IH]; intros pre rest Hlen; simpl in *.
  - destruct rest as [|r rest]; simpl in *; [lia|].
    rewrite poke_app. now rewrite drop_0.
  - destruct rest as [|r rest]; simpl in *; [lia|].
    rewrite poke_app.
    replace (pre ++ c :: rest) with ((pre ++ [c]) ++ rest)
      by (now rewrite <- app_assoc).
    replace (S (length pre)) with (length (pre ++ [c]))
      by (rewrite length_app; simpl; lia).
    rewrite IH by lia.
    now rewrite <- app_assoc.
Qed.

Lemma cstrlen_app_nul l rest :
  cstrlen (l ++ NUL :: rest) = Some (length (until_nul l)).
Proof.
  induction l as [|c l IH]; simpl; [reflexivity|].
  destruct (Ascii.eqb c NUL); [reflexivity|].
  now rewrite IH.
Qed.

Lemma until_nul_free l : nul_free l -> until_nul l = l.
Proof.
  induction 1 as [|c l Hc _ IH]; simpl; [reflexivity|].
  destruct (Ascii.eqb c NUL) eqn:E.
  - apply Ascii.eqb_eq in E. contradiction.
  - now rewrite IH.
Qed.

Lemma until_nul_prefix l : exists k, l = until_nul l ++ k.
Proof.
  induction l as [|c l [k IH]]; simpl.
  - now exists [].
  - destruct (Ascii.eqb c NUL).
    + now exists (c :: l).
    + exists k. simpl. now rewrite <- IH.
Qed.

Lemma holds_split s pre :
  holds s pre ->
  exists rest, packetbuf s = pre ++ rest /\
               (length pre + length rest = PACKETBUF_SIZE)%nat.
Proof.
  intros (_ & Hlen & Htake).
  exists (drop (length pre) (packetbuf s)). split.
  - rewrite <- Htake at 1. now rewrite take_drop.
  - rewrite length_drop.
    assert (length (take (length pre) (packetbuf s)) = length pre) as H
      by now rewrite Htake.
    rewrite length_take in H. lia.
Qed.

(** ** Rules for the monad *)

Lemma runs_to_ret {A} (a : A) s (Q : A -> state -> list event -> Prop) :
  Q a s [] -> runs_to (ret a) s Q.
Proof. intros H. now exists a, s, []. Qed.

Lemma runs_to_bind {A B} (m : M A) (k : A -> M B) s
    (Q : B -> state -> list event -> Prop) :
  runs_to m s (fun a s1 t1 =>
    runs_to (k a) s1 (fun b s2 t2 => Q b s2 (t1 ++ t2))) ->
  runs_to (bind m k) s Q.
Proof.
  intros (a & s1 & t1 & Hm & b & s2 & t2 & Hk & HQ).
  exists b, s2, (t1 ++ t2). split; [|assumption].
  unfold bind. now rewrite Hm, Hk.
Qed.

Lemma runs_to_weaken {A} (m : M A) s (Q Q' : A -> state -> list event -> Prop) :
  runs_to m s Q ->
  (forall a s' t, Q a s' t -> Q' a s' t) ->
  runs_to m s Q'.
Proof.
  intros (a & s' & t & Hm & HQ) Himp. exists a, s', t. auto.
Qed.

Lemma runs_to_gets {A} (f : state -> A) s (Q : A -> state -> list event -> Prop) :
  Q (f s) s [] -> runs_to (gets f) s Q.
Proof. intros H. now exists (f s), s, []. Qed.

Lemma runs_to_modify f s (Q : unit -> state -> list event -> Prop) :
  Q tt (f s) [] -> runs_to (modify f) s Q.
Proof. intros H. now exists tt, (f s), []. Qed.

Lemma runs_to_emit e s (Q : unit -> state -> list event -> Prop) :
  Q tt s [e] -> runs_to (emit e) s Q.
Proof. intros H. now exists tt, s, [e]. Qed.

Lemma frame_refl s : frame s s.
Proof. now repeat split. Qed.

Lemma frame_trans s1 s2 s3 : frame s1 s2 -> frame s2 s3 -> frame s1 s3.
Proof.
  intros (A1 & A2 & A3 & A4) (B1 & B2 & B3 & B4).
  repeat split; congruence.
Qed.

(** ** The statements that fill the buffer *)

Lemma put_char_ok c s pre :
  holds s pre -> (length pre < PACKETBUF_SIZE)%nat ->
  runs_to (put_char c) s (fun _ s' t =>
    t = [] /\ frame s s' /\ holds s' (pre ++ [c])).
Proof.
  intros Hh Hlt. destruct (holds_split _ _ Hh) as (rest & Hbuf & Hlen).
  destruct Hh as (Hp & Hsz & _).
  destruct rest as [|r rest]; simpl in Hlen; [lia|].
  unfold runs_to, put_char. rewrite Hbuf, Hp, poke_app.
  eexists _, _, _. split; [reflexivity|].
  split; [reflexivity|]. split; [now repeat split|].
  unfold holds; simpl. rewrite !length_app; simpl.
  repeat split; [lia|lia|].
  replace (pre ++ c :: rest) with ((pre ++ [c]) ++ rest)
    by (now rewrite <- app_assoc).
  apply take_app_length'. rewrite length_app; simpl; lia.
Qed.

Lemma write_at_p_ok str s pre :
  holds s pre -> (length pre + length str < PACKETBUF_SIZE)%nat ->
  runs_to (write_at_p str) s (fun _ s' t =>
    t = [] /\ frame s s' /\ pending s' pre str).
Proof.
  intros Hh Hlt. destruct (holds_split _ _ Hh) as (rest & Hbuf & Hlen).
  destruct Hh as (Hp & Hsz & _).
  unfold runs_to, write_at_p. rewrite Hbuf, Hp, write_cstr_app by lia.
  eexists _, _, _. split; [reflexivity|].
  split; [reflexivity|]. split; [now repeat split|].
  unfold pending; simpl. split; [assumption|]. split.
  - rewrite !length_app; simpl. rewrite length_drop. lia.
  - replace (pre ++ str ++ NUL :: drop (S (length str)) rest)
      with ((pre ++ str ++ [NUL]) ++ drop (S (length str)) rest)
      by (now rewrite <- !app_assoc).
    apply take_app_length'. rewrite !length_app; simpl; lia.
Qed.

Lemma pending_split s pre str :
  pending s pre str ->
  exists rest, packetbuf s = pre ++ str ++ NUL :: rest.
Proof.
  intros (_ & _ & Htake).
  exists (drop (length pre + length str + 1) (packetbuf s)).
  rewrite <- (take_drop (length pre + length str + 1) (packetbuf s)) at 1.
  rewrite Htake. now rewrite <- !app_assoc.
Qed.

Lemma p_add_strlen_ok s pre str :
  pending s pre str -> nul_free str ->
  runs_to p_add_strlen s (fun _ s' t =>
    t = [] /\ frame s s' /\ holds s' (pre ++ str)).
Proof.
  intros Hp Hfree. destruct (pending_split _ _ _ Hp) as (rest & Hbuf).
  destruct Hp as (Hptr & Hsz & _).
  unfold runs_to, p_add_strlen, strlen_at.
  rewrite Hbuf, Hptr, drop_app_length, cstrlen_app_nul, until_nul_free
    by assumption.
  eexists _, _, _. split; [reflexivity|].
  split; [reflexivity|]. split; [now repeat split|].
  unfold holds; simpl. rewrite length_app.
  repeat split; [assumption|].
  rewrite Hbuf, app_assoc. apply take_app_length'. now rewrite length_app.
Qed.

Lemma store_char_ok s pre :
  holds s pre -> (length pre < PACKETBUF_SIZE)%nat ->
  runs_to (store_char NUL) s (fun _ s' t =>
    t = [] /\ frame s s' /\ pending s' pre []).
Proof.
  intros Hh Hlt. destruct (holds_split _ _ Hh) as (rest & Hbuf & Hlen).
  destruct Hh as (Hp & Hsz & _).
  destruct rest as [|r rest]; simpl in Hlen; [lia|].
  unfold runs_to, store_char. rewrite Hbuf, Hp, poke_app.
  eexists _, _, _. split; [reflexivity|].
  split; [reflexivity|]. split; [now repeat split|].
  unfold pending; simpl. split; [assumption|]. split.
  - rewrite length_app; simpl. lia.
  - replace (pre ++ NUL :: rest) with ((pre ++ [NUL]) ++ rest)
      by (now rewrite <- app_assoc).
    apply take_app_length'. rewrite length_app; simpl; lia.
Qed.

Lemma strlen_packetbuf_ok s text :
  pending s text [] ->
  runs_to strlen_packetbuf s (fun n s' t =>
    t = [] /\ s' = s /\ n = length (until_nul text) /\
    take n (packetbuf s) = until_nul text).
Proof.
  intros Hp. destruct (pending_split _ _ _ Hp) as (rest & Hbuf).
  simpl in Hbuf.
  unfold runs_to, strlen_packetbuf, strlen_at.
  rewrite Hbuf, drop_0, cstrlen_app_nul.
  eexists _, _, _. split; [reflexivity|].
  repeat split.
  destruct (until_nul_prefix text) as (k & Hk).
  rewrite Hk at 2. rewrite <- app_assoc.
  now apply take_app_length.
Qed.

(** ** The encoder *)

Lemma utoa_power_mode_length m : length (utoa (power_mode_ord m)) = 1%nat.
Proof. destruct m; reflexivity. Qed.

(** One statement on the buffer: [lem] is its rule, [Hh] what is known of
    the buffer before it, [Hfr] the frame since the base state. *)
Ltac buf_side :=
  unfold PACKETBUF_SIZE; rewrite ?length_app; cbn [length]; lia.

Tactic Notation "buf_step" constr(lem) hyp(Hh) hyp(Hfr)
    "as" ident(s') ident(Hh') ident(Hfr') :=
  eapply runs_to_bind; eapply runs_to_weaken;
  [ eapply lem; [exact Hh | try buf_side ..]
  | let Hf := fresh "Hf" in
    intros [] s' ? (-> & Hf & Hh');
    pose proof (frame_trans _ _ _ Hfr Hf) as Hfr';
    clear Hfr Hf Hh ].

Lemma compose_packet_ok i s :
  wf_state s -> temp_fits (temperature i) ->
  runs_to (compose_packet i) s (fun _ s' t =>
    t = [Call_get_batt_voltage (get_batt_voltage (adc i));
         Call_get_temperature (temperature i)] /\
    seqid s' = seqid s /\ wakes s' = wakes s /\
    power_mode s' = power_mode s /\
    batt_mv s' = get_batt_voltage (adc i) /\
    pending s' (packet_text (seqid s) (get_batt_voltage (adc i))
                            (temperature i) (power_mode s)) []).
Proof.
  intros Hwf Hfit. unfold compose_packet, temp_fits, TEMP_TEXT_ROOM in *.
  set (mv := get_batt_voltage (adc i)).
  set (tmp := temperature i) in *.
  pose proof (utoa_length mv) as Hlmv.
  pose proof (utoa_power_mode_length (power_mode s)) as Hlpm.
  assert (length HOPS = 1%nat) as HlH by reflexivity.
  assert (length NODE_ID = 3%nat) as HlN by reflexivity.
  assert (length (utoa WAKE_FREQ) = 1%nat) as HlW by reflexivity.
  assert (length (utoa TX_POWER_DBM) = 2%nat) as HlT by reflexivity.
  (* p = packetbuf; *)
  eapply runs_to_bind, runs_to_modify.
  assert (holds (set_p 0 s) []) as Hb by (now repeat split).
  assert (frame s (set_p 0 s)) as Hfr by (now repeat split).
  (* hops *)
  buf_step write_at_p_ok Hb Hfr as s1 Hb1 Hfr1.
  buf_step p_add_strlen_ok Hb1 Hfr1 as s2 Hb2 Hfr2; [now repeat constructor|].
  (* seqid *)
  eapply runs_to_bind, runs_to_gets.
  replace (seqid s2) with (seqid s) by (symmetry; apply Hfr2).
  buf_step put_char_ok Hb2 Hfr2 as s3 Hb3 Hfr3.
  buf_step put_char_ok Hb3 Hfr3 as s4 Hb4 Hfr4.
  (* voltage *)
  unfold call_get_batt_voltage.
  eapply runs_to_bind, runs_to_bind, runs_to_emit, runs_to_ret.
  eapply runs_to_bind, runs_to_modify.
  fold mv.
  destruct Hfr4 as (E1 & E2 & _ & E4).
  assert (holds (set_batt_mv mv s4) ((([] ++ HOPS) ++ [seqid s]) ++ ["V"%char]))
    as Hb5 by exact Hb4.
  assert (frame (set_batt_mv mv s4) (set_batt_mv mv s4)) as Hfr5
    by apply frame_refl.
  clear Hb4.
  buf_step write_at_p_ok Hb5 Hfr5 as s6 Hb6 Hfr6.
  buf_step p_add_strlen_ok Hb6 Hfr6 as s7 Hb7 Hfr7; [apply utoa_nul_free|].
  (* temperature *)
  buf_step put_char_ok Hb7 Hfr7 as s8 Hb8 Hfr8.
  unfold call_get_temperature.
  eapply runs_to_bind, runs_to_bind, runs_to_emit, runs_to_ret.
  fold tmp.
  buf_step write_at_p_ok Hb8 Hfr8 as s9 Hb9 Hfr9.
  buf_step p_add_strlen_ok Hb9 Hfr9 as s10 Hb10 Hfr10; [apply dtostrf_nul_free|].
  (* custom field *)
  buf_step put_char_ok Hb10 Hfr10 as s11 Hb11 Hfr11.
  buf_step write_at_p_ok Hb11 Hfr11 as s12 Hb12 Hfr12.
  buf_step p_add_strlen_ok Hb12 Hfr12 as s13 Hb13 Hfr13; [apply utoa_nul_free|].
  buf_step put_char_ok Hb13 Hfr13 as s14 Hb14 Hfr14.
  buf_step write_at_p_ok Hb14 Hfr14 as s15 Hb15 Hfr15.
  buf_step p_add_strlen_ok Hb15 Hfr15 as s16 Hb16 Hfr16; [apply utoa_nul_free|].
  buf_step put_char_ok Hb16 Hfr16 as s17 Hb17 Hfr17.
  eapply runs_to_bind, runs_to_gets.
  replace (power_mode s17) with (power_mode s)
    by (destruct Hfr17 as (_ & _ & _ & ->); symmetry; exact E4).
  buf_step write_at_p_ok Hb17 Hfr17 as s18 Hb18 Hfr18.
  buf_step p_add_strlen_ok Hb18 Hfr18 as s19 Hb19 Hfr19; [apply utoa_nul_free|].
  (* node id *)
  buf_step put_char_ok Hb19 Hfr19 as s20 Hb20 Hfr20.
  buf_step write_at_p_ok Hb20 Hfr20 as s21 Hb21 Hfr21.
  buf_step p_add_strlen_ok Hb21 Hfr21 as s22 Hb22 Hfr22; [now repeat constructor|].
  buf_step put_char_ok Hb22 Hfr22 as s23 Hb23 Hfr23.
  (* terminator *)
  eapply runs_to_weaken; [eapply store_char_ok; [exact Hb23|buf_side]|].
  intros [] s' t (-> & Hf & Hp).
  pose proof (frame_trans _ _ _ Hfr23 Hf) as (F1 & F2 & F3 & F4).
  simpl in F1, F2, F3, F4.
  match type of Hp with
  | pending _ ?l _ =>
      replace l with (packet_text (seqid s) mv tmp (power_mode s)) in Hp
        by (unfold packet_text; rewrite <- !app_assoc; reflexivity)
  end.
  split; [reflexivity|].
  repeat split; try congruence; apply Hp.
Qed.

(** A temperature text of 48 characters, longer than any that the
    conversion of a [float] gives, would run over the end of the buffer:
    the bounds of the model are not idle. *)
Example compose_packet_overrun :
  length (dtostrf_1_1 (10 ^ 46)) = 48%nat /\
  compose_packet (mkInput 987 (10 ^ 46)) initial_state = None.
Proof. split; vm_compute; reflexivity. Qed.

(** ** One pass of the loop *)

Lemma go_to_sleep_eq s :
  go_to_sleep s = Some (tt, s, sleep_trace (power_mode s)).
Proof.
  unfold go_to_sleep, bind, gets. destruct (power_mode s); reflexivity.
Qed.

Lemma transmit_cycle_ok i s :
  wf_state s -> temp_fits (temperature i) ->
  runs_to (transmit_cycle i) s (fun _ s' t =>
    let mv := get_batt_voltage (adc i) in
    let text := packet_text (seqid s) mv (temperature i) (power_mode s) in
    t = [Call_get_batt_voltage mv; Call_get_temperature (temperature i);
         Call_rf69_send (until_nul text) (length (until_nul text)) TX_POWER_DBM;
         Call_delay_ms 10] /\
    seqid s' = next_seqid (seqid s) /\ wakes s' = 1 /\ batt_mv s' = mv /\
    power_mode s' = update_power_mode (power_mode s) mv /\
    pending s' text []).
Proof.
  intros Hwf Hfit. unfold transmit_cycle.
  eapply runs_to_bind, runs_to_weaken; [now apply compose_packet_ok|].
  intros [] s1 t1 (-> & E1 & E2 & E3 & E4 & Hp).
  eapply runs_to_bind, runs_to_weaken; [apply strlen_packetbuf_ok, Hp|].
  intros n s2 t2 (-> & -> & -> & Htake).
  eapply runs_to_bind, runs_to_gets.
  eapply runs_to_bind, runs_to_emit.
  eapply runs_to_bind, runs_to_emit.
  eapply runs_to_bind, runs_to_modify.
  eapply runs_to_bind, runs_to_gets.
  eapply runs_to_bind, runs_to_modify.
  eapply runs_to_bind, runs_to_gets.
  eapply runs_to_bind, runs_to_gets.
  apply runs_to_modify.
  cbn -[packet_text until_nul update_power_mode next_seqid take].
  rewrite Htake, E1, E3, E4.
  repeat split; apply Hp.
Qed.

Lemma cycle_tick_transmit i s :
  wf_state s -> temp_fits (temperature i) -> wakes s = WAKE_FREQ ->
  runs_to (cycle_tick i) s (fun _ s' t =>
    let mv := get_batt_voltage (adc i) in
    let text := packet_text (seqid s) mv (temperature i) (power_mode s) in
    t = [Call_get_batt_voltage mv; Call_get_temperature (temperature i);
         Call_rf69_send (until_nul text) (length (until_nul text)) TX_POWER_DBM;
         Call_delay_ms 10] ++ sleep_trace (power_mode s') /\
    seqid s' = next_seqid (seqid s) /\ wakes s' = 1 /\ batt_mv s' = mv /\
    power_mode s' = update_power_mode (power_mode s) mv /\
    pending s' text []).
Proof.
  intros Hwf Hfit Hw. unfold cycle_tick.
  eapply runs_to_bind, runs_to_gets.
  rewrite Hw, Z.eqb_refl.
  eapply runs_to_bind, runs_to_weaken; [now apply transmit_cycle_ok|].
  intros [] s1 t1 (-> & E1 & E2 & E3 & E4 & Hp).
  exists tt, s1, (sleep_trace (power_mode s1)).
  split; [apply go_to_sleep_eq|].
  split; [reflexivity|]. auto 10.
Qed.

Lemma cycle_tick_idle i s :
  wakes s <> WAKE_FREQ ->
  cycle_tick i s =
  Some (tt, set_wakes (uint8 (wakes s + 1)) s, sleep_trace (power_mode s)).
Proof.
  intros Hw. unfold cycle_tick, bind, gets, modify.
  apply Z.eqb_neq in Hw. rewrite Hw.
  rewrite go_to_sleep_eq. reflexivity.
Qed.

Lemma pending_wf s text : pending s text [] -> wf_state s.
Proof. intros (_ & H & _). exact H. Qed.

Lemma count_sleep_trace f m :
  f Sleep_INT0 = false -> f (Call_delay_ms 50) = false ->
  f Sleep_WDTO_8S = false ->
  count_events f (sleep_trace m) = 0%nat.
Proof. intros H1 H2 H3. destruct m; simpl; now rewrite ?H1, ?H2, ?H3. Qed.

Lemma sent_sleep_trace m : sent_packets (sleep_trace m) = [].
Proof. now destruct m. Qed.


Lemma count_transmit_trace f a b c d m :
  count_events f ([a; b; c; d] ++ sleep_trace m) =
  ((if f a then 1 else 0) + ((if f b then 1 else 0) +
   ((if f c then 1 else 0) + ((if f d then 1 else 0) +
    count_events f (sleep_trace m)))))%nat.
Proof. reflexivity. Qed.

Lemma packet_text_nul_free c mv t m :
  c <> NUL -> nul_free (packet_text c mv t m).
Proof.
  intros Hc. unfold packet_text, nul_free.
  repeat first
    [ apply utoa_nul_free | apply dtostrf_nul_free
    | apply Forall_nil_2
    | apply Forall_cons_2; [first [assumption | discriminate]|]
    | apply Forall_app_2 ].
Qed.

Lemma packet_text_seqid c mv t m :
  packet_seqid (packet_text c mv t m) = Some c.
Proof. reflexivity. Qed.

Lemma encode_packet_eq i s :
  wf_state s -> temp_fits (temperature i) ->
  encode_packet i s =
  Some (until_nul (packet_text (seqid s) (get_batt_voltage (adc i))
                               (temperature i) (power_mode s))).
Proof.
  intros Hwf Hfit.
  destruct (compose_packet_ok i s Hwf Hfit)
    as ([] & s1 & t1 & Hrun & _ & _ & _ & _ & _ & Hp).
  destruct (strlen_packetbuf_ok _ _ Hp)
    as (n & s2 & t2 & Hlen & _ & _ & -> & Htake).
  unfold encode_packet. rewrite Hrun.
  unfold strlen_packetbuf in Hlen.
  destruct (strlen_at (packetbuf s1) 0) as [k|]; [|discriminate].
  match type of Htake with
  | take ?n _ = _ => assert (k = n) as -> by congruence
  end.
  now rewrite Htake.
Qed.

(** Every pass returns; it either transmits or only counts. *)
Lemma cycle_tick_cases i s :
  wf_state s -> input_ok i ->
  exists s' t,
    cycle_tick i s = Some (tt, s', t) /\ wf_state s' /\
    ((wakes s = WAKE_FREQ /\ wakes s' = 1 /\
      seqid s' = next_seqid (seqid s) /\
      sent_packets t =
        [until_nul (packet_text (seqid s) (get_batt_voltage (adc i))
                                (temperature i) (power_mode s))] /\
      count_events is_send t = 1%nat)
     \/
     (wakes s <> WAKE_FREQ /\ wakes s' = uint8 (wakes s + 1) /\
      seqid s' = seqid s /\
      sent_packets t = [] /\
      count_events is_send t = 0%nat)).
Proof.
  intros Hwf Hok.
  destruct (Z.eq_dec (wakes s) WAKE_FREQ) as [Hw|Hw].
  - destruct (cycle_tick_transmit i s Hwf Hok Hw)
      as ([] & s' & t & Hrun & -> & E1 & E2 & _ & _ & Hp).
    eexists s', _. split; [exact Hrun|].
    split; [now apply pending_wf in Hp|].
    left. repeat split; try assumption.
    + simpl. now rewrite sent_sleep_trace.
    + rewrite count_transmit_trace, count_sleep_trace; reflexivity.
  - eexists _, _. split; [now apply cycle_tick_idle|].
    split; [exact Hwf|]. right.
    repeat split; try assumption.
    + apply sent_sleep_trace.
    + now apply count_sleep_trace.
Qed.

(** * Properties of the node *)

(** ** Power mode *)

Lemma update_power_mode_boostoff mv :
  update_power_mode MODE_BOOSTOFF mv =
  if mv <? POWER_MODE_WDT_THRESH then MODE_WDT else MODE_BOOSTOFF.
Proof. reflexivity. Qed.

Lemma update_power_mode_wdt mv :
  update_power_mode MODE_WDT mv =
  if mv >? POWER_MODE_WDT_THRESH + POWER_MODE_WDT_HYST
  then MODE_BOOSTOFF else MODE_WDT.
Proof. reflexivity. Qed.

(** C1: on a transmit cycle the power mode goes from MODE_BOOSTOFF to
    MODE_WDT exactly when the voltage just sampled is below
    POWER_MODE_WDT_THRESH (1350 mV), from MODE_WDT to MODE_BOOSTOFF exactly
    when it is above POWER_MODE_WDT_THRESH + POWER_MODE_WDT_HYST (1400 mV),
    and a voltage in [1350, 1400] leaves it as it is. *)
Theorem power_mode_hysteresis (s : state) (i : input) :
  wf_state s -> input_ok i -> wakes s = WAKE_FREQ ->
  exists s' t,
    cycle_tick i s = Some (tt, s', t) /\
    let mv := get_batt_voltage (adc i) in
    count_events is_batt_sample t = 1%nat /\
    In (Call_get_batt_voltage mv) t /\
    (power_mode s = MODE_BOOSTOFF ->
       (power_mode s' = MODE_WDT <-> mv < POWER_MODE_WDT_THRESH)) /\
    (power_mode s = MODE_WDT ->
       (power_mode s' = MODE_BOOSTOFF <->
        mv > POWER_MODE_WDT_THRESH + POWER_MODE_WDT_HYST)) /\
    (POWER_MODE_WDT_THRESH <= mv <=
       POWER_MODE_WDT_THRESH + POWER_MODE_WDT_HYST ->
     power_mode s' = power_mode s).
Proof.
  intros Hwf Hok Hw.
  destruct (cycle_tick_transmit i s Hwf Hok Hw)
    as ([] & s' & t & Hrun & -> & _ & _ & _ & Epm & _).
  eexists s', _. split; [exact Hrun|]. cbv zeta.
  split; [rewrite count_transmit_trace, count_sleep_trace; reflexivity|].
  split; [now left|].
  rewrite Epm. split; [|split].
  - intros ->. rewrite update_power_mode_boostoff.
    destruct (Z.ltb_spec (get_batt_voltage (adc i)) POWER_MODE_WDT_THRESH);
      split; intros; first [assumption | reflexivity | discriminate | lia].
  - intros ->. rewrite update_power_mode_wdt.
    destruct (Z.gtb_spec (get_batt_voltage (adc i))
                (POWER_MODE_WDT_THRESH + POWER_MODE_WDT_HYST));
      split; intros; first [assumption | reflexivity | discriminate | lia].
  - intros [Hlo Hhi]. destruct (power_mode s).
    + rewrite update_power_mode_wdt.
      destruct (Z.gtb_spec (get_batt_voltage (adc i))
                  (POWER_MODE_WDT_THRESH + POWER_MODE_WDT_HYST));
        [lia|reflexivity].
    + rewrite update_power_mode_boostoff.
      destruct (Z.ltb_spec (get_batt_voltage (adc i)) POWER_MODE_WDT_THRESH);
        [lia|reflexivity].
Qed.

Lemma power_mode_hysteresis_witness :
  exists s' t,
    cycle_tick (mkInput 300 214) initial_state = Some (tt, s', t) /\
    let mv := get_batt_voltage 300 in
    count_events is_batt_sample t = 1%nat /\
    In (Call_get_batt_voltage mv) t /\
    (power_mode initial_state = MODE_BOOSTOFF ->
       (power_mode s' = MODE_WDT <-> mv < POWER_MODE_WDT_THRESH)) /\
    (power_mode initial_state = MODE_WDT ->
       (power_mode s' = MODE_BOOSTOFF <->
        mv > POWER_MODE_WDT_THRESH + POWER_MODE_WDT_HYST)) /\
    (POWER_MODE_WDT_THRESH <= mv <=
       POWER_MODE_WDT_THRESH + POWER_MODE_WDT_HYST ->
     power_mode s' = power_mode initial_state).
Proof.
  apply (power_mode_hysteresis initial_state (mkInput 300 214)).
  - reflexivity.
  - unfold input_ok, temp_fits. vm_compute. lia.
  - reflexivity.
Defined.

(** ** Transmit cycles and idle passes *)

(** C2: a pass that starts with the wake counter at WAKE_FREQ samples the
    voltage once and the temperature once, composes one packet from these
    two samples, the sequence id and the power mode in [packetbuf], hands
    that packet to the radio once, and leaves the wake counter at 1.  The
    trace of the pass is given in full: the two samples, the send of the
    packet, the 10 ms delay and the sleep; the voltage sampled is the one
    kept in [batt_mv], and the buffer holds the text of the packet, field
    by field, followed by its NUL. *)
Theorem transmit_tick_once (s : state) (i : input) :
  wf_state s -> input_ok i -> wakes s = WAKE_FREQ ->
  let mv := get_batt_voltage (adc i) in
  let text := packet_text (seqid s) mv (temperature i) (power_mode s) in
  exists s' t pkt,
    cycle_tick i s = Some (tt, s', t) /\
    t = [Call_get_batt_voltage mv; Call_get_temperature (temperature i);
         Call_rf69_send pkt (length pkt) TX_POWER_DBM; Call_delay_ms 10]
        ++ sleep_trace (power_mode s') /\
    count_events is_batt_sample t = 1%nat /\
    count_events is_temp_sample t = 1%nat /\
    count_events is_send t = 1%nat /\
    batt_mv s' = mv /\
    take (length text + 1) (packetbuf s') = text ++ [NUL] /\
    pkt = until_nul text /\
    (seqid s <> NUL -> pkt = text) /\
    encode_packet i s = Some pkt /\
    sent_packets t = [pkt] /\
    take (length pkt) (packetbuf s') = pkt /\
    wakes s' = 1.
Proof.
  intros Hwf Hok Hw mv text.
  destruct (cycle_tick_transmit i s Hwf Hok Hw)
    as ([] & s' & t & Hrun & -> & _ & E2 & E3 & _ & Hp).
  fold mv in E3, Hp, Hrun |- *. fold text in Hp, Hrun |- *.
  destruct (strlen_packetbuf_ok _ _ Hp) as (n & ? & ? & _ & _ & _ & -> & Htake).
  eexists s', _, (until_nul text). split; [exact Hrun|].
  split; [reflexivity|].
  rewrite !count_transmit_trace, !count_sleep_trace by reflexivity.
  do 3 (split; [reflexivity|]).
  split; [exact E3|]. split.
  { destruct Hp as (_ & _ & Ht). etransitivity; [|exact Ht].
    f_equal. cbn [length]. lia. }
  split; [reflexivity|]. split.
  { intros Hc. apply until_nul_free. now apply packet_text_nul_free. }
  split; [now apply encode_packet_eq|].
  split; [simpl; now rewrite sent_sleep_trace|].
  split; [exact Htake|exact E2].
Qed.

Lemma transmit_tick_once_witness :
  let mv := get_batt_voltage 987 in
  let text := packet_text (seqid initial_state) mv 214
                          (power_mode initial_state) in
  exists s' t pkt,
    cycle_tick (mkInput 987 214) initial_state = Some (tt, s', t) /\
    t = [Call_get_batt_voltage mv; Call_get_temperature 214;
         Call_rf69_send pkt (length pkt) TX_POWER_DBM; Call_delay_ms 10]
        ++ sleep_trace (power_mode s') /\
    count_events is_batt_sample t = 1%nat /\
    count_events is_temp_sample t = 1%nat /\
    count_events is_send t = 1%nat /\
    batt_mv s' = mv /\
    take (length text + 1) (packetbuf s') = text ++ [NUL] /\
    pkt = until_nul text /\
    (seqid initial_state <> NUL -> pkt = text) /\
    encode_packet (mkInput 987 214) initial_state = Some pkt /\
    sent_packets t = [pkt] /\
    take (length pkt) (packetbuf s') = pkt /\
    wakes s' = 1.
Proof.
  apply (transmit_tick_once initial_state (mkInput 987 214)).
  - reflexivity.
  - unfold input_ok, temp_fits. vm_compute. lia.
  - reflexivity.
Defined.

(** C3: a pass that starts with the wake counter in [1, WAKE_FREQ-1] adds
    one to the counter and goes back to sleep: nothing is sampled, nothing
    is written to the buffer, nothing is sent, and the sequence id, the
    power mode and the last voltage are as before. *)
Theorem idle_tick_only_counts (s : state) (i : input) :
  1 <= wakes s <= WAKE_FREQ - 1 ->
  exists s' t,
    cycle_tick i s = Some (tt, s', t) /\
    wakes s' = wakes s + 1 /\
    seqid s' = seqid s /\ power_mode s' = power_mode s /\
    batt_mv s' = batt_mv s /\ packetbuf s' = packetbuf s /\ p s' = p s /\
    count_events is_batt_sample t = 0%nat /\
    count_events is_temp_sample t = 0%nat /\
    count_events is_send t = 0%nat /\
    sent_packets t = [] /\
    t = sleep_trace (power_mode s).
Proof.
  intros Hw. unfold WAKE_FREQ in Hw.
  eexists _, _. split.
  - apply cycle_tick_idle. unfold WAKE_FREQ. lia.
  - simpl. rewrite !count_sleep_trace by reflexivity.
    rewrite sent_sleep_trace. repeat split.
    unfold uint8. apply Z.mod_small. lia.
Qed.

Lemma idle_tick_only_counts_witness :
  exists s' t,
    cycle_tick (mkInput 987 214) (set_wakes 3 initial_state) = Some (tt, s', t) /\
    wakes s' = wakes (set_wakes 3 initial_state) + 1 /\
    seqid s' = seqid (set_wakes 3 initial_state) /\
    power_mode s' = power_mode (set_wakes 3 initial_state) /\
    batt_mv s' = batt_mv (set_wakes 3 initial_state) /\
    packetbuf s' = packetbuf (set_wakes 3 initial_state) /\
    p s' = p (set_wakes 3 initial_state) /\
    count_events is_batt_sample t = 0%nat /\
    count_events is_temp_sample t = 0%nat /\
    count_events is_send t = 0%nat /\
    sent_packets t = [] /\
    t = sleep_trace (power_mode (set_wakes 3 initial_state)).
Proof.
  apply (idle_tick_only_counts (set_wakes 3 initial_state) (mkInput 987 214)).
  simpl. unfold WAKE_FREQ. lia.
Defined.

(** C9: the wake counter starts at WAKE_FREQ, not at 1, so the first pass
    after power-on is a transmit cycle: pass number 1 sends the first
    packet, and that packet carries the sequence id ['a']. *)
Theorem first_tick_transmits (i : input) :
  input_ok i ->
  wakes initial_state = WAKE_FREQ /\ wakes initial_state <> 1 /\
  exists s' t pkt,
    cycle_tick i initial_state = Some (tt, s', t) /\
    run [i] initial_state = Some (s', [t]) /\
    transmit_ticks [t] = [1%nat] /\
    sent_packets t = [pkt] /\
    pkt = packet_text "a" (get_batt_voltage (adc i)) (temperature i)
                      MODE_BOOSTOFF /\
    packet_seqid pkt = Some "a"%char.
Proof.
  intros Hok. split; [reflexivity|]. split; [discriminate|].
  destruct (cycle_tick_transmit i initial_state eq_refl Hok eq_refl)
    as ([] & s' & t & Hrun & Ht & _).
  change (seqid initial_state) with "a"%char in Ht.
  change (power_mode initial_state) with MODE_BOOSTOFF in Ht.
  rewrite until_nul_free in Ht by (apply packet_text_nul_free; discriminate).
  eexists s', t, _. split; [exact Hrun|].
  split; [simpl; now rewrite Hrun|].
  rewrite Ht. unfold transmit_ticks.
  split; [cbn [map]; rewrite count_transmit_trace, count_sleep_trace;
          reflexivity|].
  split; [simpl; now rewrite sent_sleep_trace|].
  split; reflexivity.
Qed.

Lemma first_tick_transmits_witness :
  wakes initial_state = WAKE_FREQ /\ wakes initial_state <> 1 /\
  exists s' t pkt,
    cycle_tick (mkInput 987 214) initial_state = Some (tt, s', t) /\
    run [mkInput 987 214] initial_state = Some (s', [t]) /\
    transmit_ticks [t] = [1%nat] /\
    sent_packets t = [pkt] /\
    pkt = packet_text "a" (get_batt_voltage 987) 214 MODE_BOOSTOFF /\
    packet_seqid pkt = Some "a"%char.
Proof.
  apply (first_tick_transmits (mkInput 987 214)).
  unfold input_ok, temp_fits. vm_compute. lia.
Defined.

(** ** Battery monitor *)

(** C10: for a 10-bit conversion result [r] the product [r * 3300] stays
    below 2^32, [get_batt_voltage] returns [(r * 3300) / 1024] as it is,
    and that value is at most 3296: it fits a [uint16_t] and takes at most
    four decimal digits in the packet. *)
Theorem get_batt_voltage_exact (r : Z) :
  0 <= r <= 1023 ->
  r * 3300 < 2 ^ 32 /\
  get_batt_voltage r = r * 3300 / 1024 /\
  0 <= get_batt_voltage r <= 3296 /\
  get_batt_voltage r < 2 ^ 16 /\
  (length (utoa (get_batt_voltage r)) <= 4)%nat.
Proof.
  intros Hr.
  assert (0 <= r * 3300 / 1024 <= 3296) as Hq.
  { split; [apply Z.div_pos; lia|].
    assert (r * 3300 / 1024 < 3297) by (apply Z.div_lt_upper_bound; lia).
    lia. }
  assert (get_batt_voltage r = r * 3300 / 1024) as Heq.
  { unfold get_batt_voltage, uint32, uint16.
    rewrite (Z.mod_small r) by lia.
    rewrite (Z.mod_small (r * 3300)) by lia.
    apply Z.mod_small. lia. }
  rewrite Heq.
  split; [lia|]. split; [reflexivity|]. split; [exact Hq|]. split; [lia|].
  unfold utoa, uint16. rewrite Z.mod_small by lia.
  apply (dec_digits_length_le 3).
  change (10 ^ Z.of_nat 4) with 10000. lia.
Qed.

Lemma get_batt_voltage_exact_witness :
  1023 * 3300 < 2 ^ 32 /\
  get_batt_voltage 1023 = 1023 * 3300 / 1024 /\
  0 <= get_batt_voltage 1023 <= 3296 /\
  get_batt_voltage 1023 < 2 ^ 16 /\
  (length (utoa (get_batt_voltage 1023)) <= 4)%nat.
Proof. apply (get_batt_voltage_exact 1023). lia. Defined.

(** ** The packet and its buffer *)

Lemma packet_text_length c mv t m :
  length (packet_text c mv t m) =
  (16 + length (utoa mv) + length (dtostrf_1_1 t))%nat.
Proof.
  unfold packet_text. rewrite !length_app.
  rewrite (utoa_power_mode_length m).
  change (length HOPS) with 1%nat. change (length NODE_ID) with 3%nat.
  change (length (utoa WAKE_FREQ)) with 1%nat.
  change (length (utoa TX_POWER_DBM)) with 2%nat.
  cbn [length]. lia.
Qed.

(** C7: when the temperature text keeps to its field width (three digits,
    sign and decimal point), every store made while the packet is composed
    falls inside [packetbuf], and the packet with its terminating NUL takes
    at most 27 of the 64 bytes; the voltage is a [uint16_t] and never has
    more than five digits. *)
Theorem packet_fits_buffer (s : state) (i : input) :
  wf_state s ->
  (length (dtostrf_1_1 (temperature i)) <= TEMP_FIELD_WIDTH)%nat ->
  exists s' t,
    compose_packet i s = Some (tt, s', t) /\
    let text := packet_text (seqid s) (get_batt_voltage (adc i))
                            (temperature i) (power_mode s) in
    length (packetbuf s') = PACKETBUF_SIZE /\
    take (length text + 1) (packetbuf s') = text ++ [NUL] /\
    (length (utoa (get_batt_voltage (adc i))) <= 5)%nat /\
    (length text + 1 <= 27)%nat /\
    (length text + 1 <= PACKETBUF_SIZE)%nat.
Proof.
  intros Hwf Hw. unfold TEMP_FIELD_WIDTH in Hw.
  assert (temp_fits (temperature i)) as Hfit
    by (unfold temp_fits, TEMP_TEXT_ROOM; lia).
  destruct (compose_packet_ok i s Hwf Hfit)
    as ([] & s' & t & Hrun & _ & _ & _ & _ & _ & Hp).
  exists s', t. split; [exact Hrun|]. cbv zeta.
  destruct Hp as (_ & Hsz & Htake).
  pose proof (utoa_length (get_batt_voltage (adc i))) as Hu.
  split; [exact Hsz|]. split.
  - etransitivity; [|exact Htake]. f_equal. cbn [length]. lia.
  - rewrite packet_text_length. unfold PACKETBUF_SIZE. lia.
Qed.

Lemma packet_fits_buffer_witness :
  exists s' t,
    compose_packet (mkInput 1023 (-550)) initial_state = Some (tt, s', t) /\
    let text := packet_text (seqid initial_state) (get_batt_voltage 1023)
                            (-550) (power_mode initial_state) in
    length (packetbuf s') = PACKETBUF_SIZE /\
    take (length text + 1) (packetbuf s') = text ++ [NUL] /\
    (length (utoa (get_batt_voltage 1023)) <= 5)%nat /\
    (length text + 1 <= 27)%nat /\
    (length text + 1 <= PACKETBUF_SIZE)%nat.
Proof.
  apply (packet_fits_buffer initial_state (mkInput 1023 (-550))).
  - reflexivity.
  - vm_compute. lia.
Defined.

(** ** Sequence ids *)

Lemma nth_seqid_cases k :
  exists r, (r < 25)%nat /\ nth_seqid (S k) = ascii_of_nat (98 + r) /\
    nth_seqid (S (S k)) = ascii_of_nat (98 + (if (r =? 24)%nat then 0 else S r)).
Proof.
  exists (k mod 25)%nat.
  assert (k mod 25 < 25)%nat as Hr by (apply Nat.mod_upper_bound; lia).
  split; [exact Hr|]. split; [reflexivity|].
  unfold nth_seqid. do 2 f_equal.
  destruct (Nat.eqb_spec (k mod 25) 24) as [E|E].
  - rewrite <- Nat.add_1_r, <- Nat.Div0.add_mod_idemp_l, E. reflexivity.
  - rewrite <- Nat.add_1_r, <- Nat.Div0.add_mod_idemp_l.
    rewrite Nat.mod_small by lia. lia.
Qed.

Ltac below_25 r :=
  do 25 (destruct r as [|r]; [vm_compute; try lia; try discriminate;
                              try reflexivity|]); try lia.

Lemma next_seqid_nth k : next_seqid (nth_seqid k) = nth_seqid (S k).
Proof.
  destruct k as [|k]; [reflexivity|].
  destruct (nth_seqid_cases k) as (r & Hr & -> & ->).
  below_25 r.
Qed.

Lemma nth_seqid_lowercase k : lowercase (nth_seqid k).
Proof.
  destruct k as [|k]; [vm_compute; lia|].
  destruct (nth_seqid_cases k) as (r & Hr & -> & _).
  unfold lowercase. below_25 r.
Qed.

Lemma lowercase_not_nul c : lowercase c -> c <> NUL.
Proof. intros H ->. vm_compute in H. lia. Qed.

Lemma nth_seqid_not_a k : nth_seqid (S k) <> "a"%char.
Proof.
  destruct (nth_seqid_cases k) as (r & Hr & -> & _).
  below_25 r.
Qed.

Lemma nth_seqid_step_differs k : nth_seqid k <> nth_seqid (S k).
Proof.
  destruct k as [|k]; [discriminate|].
  destruct (nth_seqid_cases k) as (r & Hr & -> & ->).
  below_25 r.
Qed.

(** ** Runs *)

Lemma run_cons i rest s s1 t :
  cycle_tick i s = Some (tt, s1, t) ->
  run (i :: rest) s =
  match run rest s1 with
  | Some (s2, ts) => Some (s2, t :: ts)
  | None => None
  end.
Proof. intros H. simpl. now rewrite H. Qed.

Lemma sent_packets_app t t' :
  sent_packets (t ++ t') = sent_packets t ++ sent_packets t'.
Proof.
  induction t as [|e t IH]; [reflexivity|].
  destruct e; simpl; now rewrite IH.
Qed.

(** A run returns whatever the inputs, and sends as [wake_schedule] says. *)
Lemma run_schedule inputs : forall s,
  wf_state s -> Forall input_ok inputs ->
  exists s' ts,
    run inputs s = Some (s', ts) /\ wf_state s' /\
    map (count_events is_send) ts = wake_schedule (length inputs) (wakes s).
Proof.
  induction inputs as [|i rest IH]; intros s Hwf Hok.
  - exists s, []. now repeat split.
  - apply Forall_cons in Hok as [Hi Hrest].
    destruct (cycle_tick_cases i s Hwf Hi) as (s1 & t & Hrun & Hwf1 & Hcase).
    destruct (IH s1 Hwf1 Hrest) as (s2 & ts & Hrun2 & Hwf2 & Hsched).
    exists s2, (t :: ts). rewrite (run_cons _ _ _ _ _ Hrun), Hrun2.
    split; [reflexivity|]. split; [exact Hwf2|].
    cbn [map length wake_schedule]. rewrite Hsched.
    destruct Hcase as [(Hw & Hw1 & _ & _ & Hc) | (Hw & Hw1 & _ & _ & Hc)].
    + rewrite Hc, Hw, Z.eqb_refl, Hw1. reflexivity.
    + apply Z.eqb_neq in Hw. rewrite Hc, Hw, Hw1. reflexivity.
Qed.

Lemma run_wakes_in_range inputs : forall s,
  wf_state s -> Forall input_ok inputs -> wakes_in_range s ->
  exists s' ts,
    run inputs s = Some (s', ts) /\ wf_state s' /\ wakes_in_range s'.
Proof.
  induction inputs as [|i rest IH]; intros s Hwf Hok Hinv.
  - exists s, []. split; [reflexivity|]. split; assumption.
  - apply Forall_cons in Hok as [Hi Hrest].
    destruct (cycle_tick_cases i s Hwf Hi) as (s1 & t & Hrun & Hwf1 & Hcase).
    assert (wakes_in_range s1) as Hinv1.
    { unfold wakes_in_range, WAKE_FREQ in *.
      destruct Hcase as [(_ & -> & _) | (Hw & -> & _)]; [lia|].
      unfold uint8. rewrite Z.mod_small; lia. }
    destruct (IH s1 Hwf1 Hrest Hinv1) as (s2 & ts & Hrun2 & Hwf2 & Hinv2).
    exists s2, (t :: ts). rewrite (run_cons _ _ _ _ _ Hrun), Hrun2.
    split; [reflexivity|]. split; assumption.
Qed.

(** The packets of a run that starts with the sequence id of packet
    number [k] carry the sequence ids of the packets number [k], [k+1], ... *)
Lemma run_seqids inputs : forall s k,
  wf_state s -> Forall input_ok inputs -> seqid s = nth_seqid k ->
  exists s' ts,
    run inputs s = Some (s', ts) /\
    map packet_seqid (sent_packets (concat ts)) =
    map (fun j => Some (nth_seqid j))
        (seq k (length (sent_packets (concat ts)))).
Proof.
  induction inputs as [|i rest IH]; intros s k Hwf Hok Hid.
  - exists s, []. now repeat split.
  - apply Forall_cons in Hok as [Hi Hrest].
    destruct (cycle_tick_cases i s Hwf Hi) as (s1 & t & Hrun & Hwf1 & Hcase).
    destruct Hcase as [(_ & _ & Hid1 & Hsent & _) | (_ & _ & Hid1 & Hsent & _)].
    + rewrite Hid, next_seqid_nth in Hid1.
      rewrite Hid, until_nul_free in Hsent
        by (apply packet_text_nul_free, lowercase_not_nul, nth_seqid_lowercase).
      destruct (IH s1 (S k) Hwf1 Hrest Hid1) as (s2 & ts & Hrun2 & Hids).
      exists s2, (t :: ts). rewrite (run_cons _ _ _ _ _ Hrun), Hrun2.
      split; [reflexivity|].
      cbn [concat]. rewrite sent_packets_app, Hsent.
      cbn [app map length seq]. rewrite packet_text_seqid, Hids. reflexivity.
    + rewrite Hid in Hid1.
      destruct (IH s1 k Hwf1 Hrest Hid1) as (s2 & ts & Hrun2 & Hids).
      exists s2, (t :: ts). rewrite (run_cons _ _ _ _ _ Hrun), Hrun2.
      split; [reflexivity|].
      cbn [concat]. rewrite sent_packets_app, Hsent. exact Hids.
Qed.

Lemma count_events_app f t t' :
  count_events f (t ++ t') = (count_events f t + count_events f t')%nat.
Proof. induction t as [|e t IH]; simpl; [reflexivity|]. rewrite IH. lia. Qed.

Lemma count_events_concat f ts :
  count_events f (concat ts) = sum_list (map (count_events f) ts).
Proof.
  induction ts as [|t ts IH]; simpl; [reflexivity|].
  now rewrite count_events_app, IH.
Qed.

Lemma seqids_lookup (pkts : list (list ascii)) : forall k,
  map packet_seqid pkts =
    map (fun j => Some (nth_seqid j)) (seq k (length pkts)) ->
  forall j pkt, pkts !! j = Some pkt ->
    packet_seqid pkt = Some (nth_seqid (k + j)).
Proof.
  induction pkts as [|q pkts IH]; intros k Hmap j pkt Hj.
  - discriminate.
  - cbn [map length seq] in Hmap. injection Hmap as Hq Hmap.
    destruct j as [|j]; cbn in Hj.
    + injection Hj as <-. now rewrite Nat.add_0_r.
    + rewrite <- Nat.add_succ_comm. now apply IH.
Qed.

(** C4: the packets of a run carry, in the order they are sent, the
    sequence ids ['a'], ['b'], ..., ['z'], ['b'], ['c'], ...: the id of
    packet number [j] is [nth_seqid j], so no packet after the first has
    ['a'], every id is a lower-case letter, and two packets in a row never
    have the same id. *)
Theorem seqid_sequence (inputs : list input) :
  Forall input_ok inputs ->
  exists s' ts,
    run inputs initial_state = Some (s', ts) /\
    let pkts := sent_packets (concat ts) in
    (forall j pkt, pkts !! j = Some pkt ->
       packet_seqid pkt = Some (nth_seqid j)) /\
    (forall j pkt, pkts !! j = Some pkt -> (0 < j)%nat ->
       packet_seqid pkt <> Some "a"%char) /\
    (forall j pkt, pkts !! j = Some pkt ->
       exists c, packet_seqid pkt = Some c /\ lowercase c) /\
    (forall j pkt pkt', pkts !! j = Some pkt -> pkts !! S j = Some pkt' ->
       packet_seqid pkt <> packet_seqid pkt') /\
    map nth_seqid (seq 0 28) =
      String.list_ascii_of_string "abcdefghijklmnopqrstuvwxyzbc".
Proof.
  intros Hok.
  destruct (run_seqids inputs initial_state 0 eq_refl Hok eq_refl)
    as (s' & ts & Hrun & Hids).
  exists s', ts. split; [exact Hrun|]. cbv zeta.
  pose proof (seqids_lookup _ _ Hids) as Hnth. cbn [Nat.add] in Hnth.
  split; [exact Hnth|]. split; [|split; [|split]].
  - intros j pkt Hj Hpos. rewrite (Hnth _ _ Hj).
    destruct j as [|j]; [lia|].
    intros [= E]. now apply nth_seqid_not_a in E.
  - intros j pkt Hj. exists (nth_seqid j).
    split; [now apply Hnth|apply nth_seqid_lowercase].
  - intros j pkt pkt' Hj Hj'.
    rewrite (Hnth _ _ Hj), (Hnth _ _ Hj').
    intros [= E]. now apply nth_seqid_step_differs in E.
  - reflexivity.
Qed.

Lemma seqid_sequence_witness :
  exists s' ts,
    run (replicate 11 (mkInput 987 214)) initial_state = Some (s', ts) /\
    let pkts := sent_packets (concat ts) in
    (forall j pkt, pkts !! j = Some pkt ->
       packet_seqid pkt = Some (nth_seqid j)) /\
    (forall j pkt, pkts !! j = Some pkt -> (0 < j)%nat ->
       packet_seqid pkt <> Some "a"%char) /\
    (forall j pkt, pkts !! j = Some pkt ->
       exists c, packet_seqid pkt = Some c /\ lowercase c) /\
    (forall j pkt pkt', pkts !! j = Some pkt -> pkts !! S j = Some pkt' ->
       packet_seqid pkt <> packet_seqid pkt') /\
    map nth_seqid (seq 0 28) =
      String.list_ascii_of_string "abcdefghijklmnopqrstuvwxyzbc".
Proof.
  apply (seqid_sequence (replicate 11 (mkInput 987 214))).
  unfold input_ok, temp_fits.
  repeat (apply Forall_cons_2; [vm_compute; lia|]). apply Forall_nil_2.
Defined.

(** ** The wake counter *)

(** C8: every state reached from power-on has its wake counter between 1
    and WAKE_FREQ, and the next pass from it keeps it there: a pass that
    transmits leaves the counter at 1, any other pass adds one to it. *)
Theorem wakes_invariant (inputs : list input) (i : input) :
  Forall input_ok inputs -> input_ok i ->
  exists s ts s' t,
    run inputs initial_state = Some (s, ts) /\
    wakes_in_range s /\
    cycle_tick i s = Some (tt, s', t) /\
    wakes_in_range s' /\
    ((wakes s = WAKE_FREQ /\ count_events is_send t = 1%nat /\ wakes s' = 1)
     \/
     (wakes s < WAKE_FREQ /\ count_events is_send t = 0%nat /\
      wakes s' = wakes s + 1)).
Proof.
  intros Hok Hi.
  assert (wakes_in_range initial_state) as H0
    by (unfold wakes_in_range, WAKE_FREQ; simpl; unfold WAKE_FREQ; lia).
  destruct (run_wakes_in_range inputs initial_state eq_refl Hok H0)
    as (s & ts & Hrun & Hwf & Hinv).
  destruct (cycle_tick_cases i s Hwf Hi) as (s' & t & Htick & _ & Hcase).
  exists s, ts, s', t. split; [exact Hrun|]. split; [exact Hinv|].
  split; [exact Htick|].
  unfold wakes_in_range, WAKE_FREQ in *.
  destruct Hcase as [(Hw & Hw1 & _ & _ & Hc) | (Hw & Hw1 & _ & _ & Hc)].
  - split; [lia|]. left. auto.
  - assert (uint8 (wakes s + 1) = wakes s + 1) as E
      by (unfold uint8; rewrite Z.mod_small; lia).
    rewrite E in Hw1. split; [lia|]. right. repeat split; [lia|exact Hc|exact Hw1].
Qed.

Lemma wakes_invariant_witness :
  exists s ts s' t,
    run (replicate 7 (mkInput 987 214)) initial_state = Some (s, ts) /\
    wakes_in_range s /\
    cycle_tick (mkInput 300 (-53)) s = Some (tt, s', t) /\
    wakes_in_range s' /\
    ((wakes s = WAKE_FREQ /\ count_events is_send t = 1%nat /\ wakes s' = 1)
     \/
     (wakes s < WAKE_FREQ /\ count_events is_send t = 0%nat /\
      wakes s' = wakes s + 1)).
Proof.
  apply (wakes_invariant (replicate 7 (mkInput 987 214)) (mkInput 300 (-53))).
  - unfold input_ok, temp_fits.
    repeat (apply Forall_cons_2; [vm_compute; lia|]). apply Forall_nil_2.
  - unfold input_ok, temp_fits. vm_compute. lia.
Defined.

(** C5 as worded does not hold: twelve passes after power-on do not send
    exactly two packets on passes 5 and 10. *)
Lemma wake_cadence_claim_refuted :
  ~ (exists s' ts,
       run (replicate 12 (mkInput 987 214)) initial_state = Some (s', ts) /\
       count_events is_send (concat ts) = 2%nat /\
       transmit_ticks ts = [5; 10]%nat).
Proof.
  intros (s' & ts & Hrun & _ & Hticks).
  vm_compute in Hrun. injection Hrun as <- <-.
  vm_compute in Hticks. discriminate.
Qed.

(** C5, amended: the wake counter starts at WAKE_FREQ = 5, so twelve passes
    after power-on send exactly three packets, on passes 1, 6 and 11.  Two
    packets on passes 5 and 10 is what twelve passes give from a state whose
    wake counter is 1, as it is just after a transmission. *)
Theorem wake_cadence (inputs : list input) (s : state) :
  length inputs = 12%nat -> Forall input_ok inputs ->
  wf_state s -> wakes s = 1 ->
  (exists s' ts,
     run inputs initial_state = Some (s', ts) /\
     map (count_events is_send) ts = [1; 0; 0; 0; 0; 1; 0; 0; 0; 0; 1; 0]%nat /\
     count_events is_send (concat ts) = 3%nat /\
     transmit_ticks ts = [1; 6; 11]%nat) /\
  (exists s' ts,
     run inputs s = Some (s', ts) /\
     map (count_events is_send) ts = [0; 0; 0; 0; 1; 0; 0; 0; 0; 1; 0; 0]%nat /\
     count_events is_send (concat ts) = 2%nat /\
     transmit_ticks ts = [5; 10]%nat).
Proof.
  intros Hlen Hok Hwf Hw. split.
  - destruct (run_schedule inputs initial_state eq_refl Hok)
      as (s' & ts & Hrun & _ & Hsched).
    rewrite Hlen in Hsched.
    exists s', ts. split; [exact Hrun|].
    unfold transmit_ticks. rewrite count_events_concat, Hsched.
    now repeat split.
  - destruct (run_schedule inputs s Hwf Hok) as (s' & ts & Hrun & _ & Hsched).
    rewrite Hlen, Hw in Hsched.
    exists s', ts. split; [exact Hrun|].
    unfold transmit_ticks. rewrite count_events_concat, Hsched.
    now repeat split.
Qed.

Lemma wake_cadence_witness :
  (exists s' ts,
     run (replicate 12 (mkInput 987 214)) initial_state = Some (s', ts) /\
     map (count_events is_send) ts = [1; 0; 0; 0; 0; 1; 0; 0; 0; 0; 1; 0]%nat /\
     count_events is_send (concat ts) = 3%nat /\
     transmit_ticks ts = [1; 6; 11]%nat) /\
  (exists s' ts,
     run (replicate 12 (mkInput 987 214)) (set_wakes 1 initial_state)
       = Some (s', ts) /\
     map (count_events is_send) ts = [0; 0; 0; 0; 1; 0; 0; 0; 0; 1; 0; 0]%nat /\
     count_events is_send (concat ts) = 2%nat /\
     transmit_ticks ts = [5; 10]%nat).
Proof.
  apply (wake_cadence (replicate 12 (mkInput 987 214))
                      (set_wakes 1 initial_state)).
  - reflexivity.
  - unfold input_ok, temp_fits.
    repeat (apply Forall_cons_2; [vm_compute; lia|]). apply Forall_nil_2.
  - reflexivity.
  - reflexivity.
Defined.

(** ** The wire format at the inputs of the specification *)

(** C6 as worded does not hold: with hop count "1", sequence id ['a'],
    3180 mV, 21.4 degrees and node id "JH9" the encoder of this node does
    not leave [1aV3180T21.4[JH9]] in the buffer. *)
Lemma encoder_basic_format_refuted :
  HOPS = String.list_ascii_of_string "1" /\
  NODE_ID = String.list_ascii_of_string "JH9" /\
  seqid initial_state = "a"%char /\
  get_batt_voltage 987 = 3180 /\
  dtostrf_1_1 214 = String.list_ascii_of_string "21.4" /\
  encode_packet (mkInput 987 214) initial_state <>
    Some (String.list_ascii_of_string "1aV3180T21.4[JH9]").
Proof. repeat split. vm_compute. discriminate. Qed.

(** C6, amended: for hop count "1", sequence id ['a'], 3180 mV, 21.4
    degrees and node id "JH9" the encoder of this node produces the packet
    with the custom field, [1aV3180T21.4X5,10,1[JH9]] in MODE_BOOSTOFF (the
    mode at power-on) and [1aV3180T21.4X5,10,0[JH9]] in MODE_WDT, with no
    newline after it; [1aV3180T21.4[JH9]] is what the encoder of the nodes
    without the custom field produces for these inputs. *)
Theorem encoder_fixed_inputs (s : state) (i : input) :
  wf_state s -> seqid s = "a"%char ->
  get_batt_voltage (adc i) = 3180 -> temperature i = 214 ->
  encode_packet i s =
    Some (String.list_ascii_of_string
            match power_mode s with
            | MODE_BOOSTOFF => "1aV3180T21.4X5,10,1[JH9]"
            | MODE_WDT => "1aV3180T21.4X5,10,0[JH9]"
            end) /\
  encode_packet_basic HOPS NODE_ID i 21 4 initial_state =
    Some (String.list_ascii_of_string "1aV3180T21.4[JH9]").
Proof.
  intros Hwf Hid Hmv Ht. split.
  - rewrite encode_packet_eq;
      [|exact Hwf|unfold temp_fits; rewrite Ht; vm_compute; lia].
    rewrite Hid, Hmv, Ht. destruct (power_mode s); reflexivity.
  - unfold encode_packet_basic, compose_packet_basic, call_get_batt_voltage.
    rewrite Hmv. reflexivity.
Qed.

Lemma encoder_fixed_inputs_witness :
  encode_packet (mkInput 987 214) initial_state =
    Some (String.list_ascii_of_string
            match power_mode initial_state with
            | MODE_BOOSTOFF => "1aV3180T21.4X5,10,1[JH9]"
            | MODE_WDT => "1aV3180T21.4X5,10,0[JH9]"
            end) /\
  encode_packet_basic HOPS NODE_ID (mkInput 987 214) 21 4 initial_state =
    Some (String.list_ascii_of_string "1aV3180T21.4[JH9]").
Proof.
  apply (encoder_fixed_inputs initial_state (mkInput 987 214));
    reflexivity.
Defined.

(** * Further properties of fc-node3 *)

(** ** The power mode over several passes *)

Lemma update_power_mode_settles m mv :
  update_power_mode (update_power_mode m mv) mv = update_power_mode m mv.
Proof.
  destruct m.
  - rewrite update_power_mode_wdt.
    destruct (Z.gtb_spec mv (POWER_MODE_WDT_THRESH + POWER_MODE_WDT_HYST))
      as [Hgt|Hle].
    + rewrite update_power_mode_boostoff.
      destruct (Z.ltb_spec mv POWER_MODE_WDT_THRESH) as [Hlt|_];
        [|reflexivity].
      unfold POWER_MODE_WDT_THRESH, POWER_MODE_WDT_HYST in *. lia.
    + rewrite update_power_mode_wdt.
      destruct (Z.gtb_spec mv (POWER_MODE_WDT_THRESH + POWER_MODE_WDT_HYST));
        [lia|reflexivity].
  - rewrite update_power_mode_boostoff.
    destruct (Z.ltb_spec mv POWER_MODE_WDT_THRESH) as [Hlt|Hge].
    + rewrite update_power_mode_wdt.
      destruct (Z.gtb_spec mv (POWER_MODE_WDT_THRESH + POWER_MODE_WDT_HYST))
        as [Hgt|_]; [|reflexivity].
      unfold POWER_MODE_WDT_THRESH, POWER_MODE_WDT_HYST in *. lia.
    + rewrite update_power_mode_boostoff.
      destruct (Z.ltb_spec mv POWER_MODE_WDT_THRESH); [lia|reflexivity].
Qed.

(** X1: two changes of the power mode in a row need two voltage samples
    that lie more than POWER_MODE_WDT_HYST apart, on the two sides of the
    dead band, and the second change undoes the first. *)
Theorem mode_flapping_needs_swing (m : power_mode_t) (v1 v2 : Z) :
  update_power_mode m v1 <> m ->
  update_power_mode (update_power_mode m v1) v2 <> update_power_mode m v1 ->
  update_power_mode (update_power_mode m v1) v2 = m /\
  Z.abs (v2 - v1) > POWER_MODE_WDT_HYST /\
  (Z.min v1 v2 < POWER_MODE_WDT_THRESH /\
   POWER_MODE_WDT_THRESH + POWER_MODE_WDT_HYST < Z.max v1 v2).
Proof.
  intros H1 H2. destruct m.
  - rewrite update_power_mode_wdt in *.
    destruct (Z.gtb_spec v1 (POWER_MODE_WDT_THRESH + POWER_MODE_WDT_HYST));
      [|contradiction].
    rewrite update_power_mode_boostoff in *.
    destruct (Z.ltb_spec v2 POWER_MODE_WDT_THRESH); [|contradiction].
    unfold POWER_MODE_WDT_THRESH, POWER_MODE_WDT_HYST in *.
    split; [reflexivity|]. lia.
  - rewrite update_power_mode_boostoff in *.
    destruct (Z.ltb_spec v1 POWER_MODE_WDT_THRESH); [|contradiction].
    rewrite update_power_mode_wdt in *.
    destruct (Z.gtb_spec v2 (POWER_MODE_WDT_THRESH + POWER_MODE_WDT_HYST));
      [|contradiction].
    unfold POWER_MODE_WDT_THRESH, POWER_MODE_WDT_HYST in *.
    split; [reflexivity|]. lia.
Qed.

Lemma mode_flapping_needs_swing_witness :
  update_power_mode (update_power_mode MODE_BOOSTOFF 1349) 1401
    = MODE_BOOSTOFF /\
  Z.abs (1401 - 1349) > POWER_MODE_WDT_HYST /\
  (Z.min 1349 1401 < POWER_MODE_WDT_THRESH /\
   POWER_MODE_WDT_THRESH + POWER_MODE_WDT_HYST < Z.max 1349 1401).
Proof.
  apply (mode_flapping_needs_swing MODE_BOOSTOFF 1349 1401);
    vm_compute; discriminate.
Defined.

(** Every pass returns; what it leaves behind, in full. *)
Lemma cycle_tick_full i s :
  wf_state s -> input_ok i ->
  exists s' t,
    cycle_tick i s = Some (tt, s', t) /\ wf_state s' /\
    ((wakes s = WAKE_FREQ /\
      t = [Call_get_batt_voltage (get_batt_voltage (adc i));
           Call_get_temperature (temperature i);
           Call_rf69_send
             (until_nul (packet_text (seqid s) (get_batt_voltage (adc i))
                                     (temperature i) (power_mode s)))
             (length
                (until_nul (packet_text (seqid s) (get_batt_voltage (adc i))
                                        (temperature i) (power_mode s))))
             TX_POWER_DBM;
           Call_delay_ms 10] ++ sleep_trace (power_mode s') /\
      power_mode s' =
        update_power_mode (power_mode s) (get_batt_voltage (adc i)) /\
      wakes s' = 1 /\ seqid s' = next_seqid (seqid s) /\
      batt_mv s' = get_batt_voltage (adc i))
     \/
     (wakes s <> WAKE_FREQ /\
      t = sleep_trace (power_mode s') /\
      s' = set_wakes (uint8 (wakes s + 1)) s)).
Proof.
  intros Hwf Hok.
  destruct (Z.eq_dec (wakes s) WAKE_FREQ) as [Hw|Hw].
  - destruct (cycle_tick_transmit i s Hwf Hok Hw)
      as ([] & s' & t & Hrun & -> & E1 & E2 & E3 & E4 & Hp).
    eexists s', _. split; [exact Hrun|].
    split; [now apply pending_wf in Hp|].
    left. auto 10.
  - eexists _, _. split; [now apply cycle_tick_idle|].
    split; [exact Hwf|]. right. auto.
Qed.

Lemma count_send_transmit_trace a b c d e f m :
  count_events is_send
    ([Call_get_batt_voltage a; Call_get_temperature b;
      Call_rf69_send c d e; Call_delay_ms f] ++ sleep_trace m) = 1%nat.
Proof. rewrite count_transmit_trace, count_sleep_trace; reflexivity. Qed.

(** A run at one constant voltage: the mode is decided by the first
    transmit cycle and stays. *)
Lemma run_constant_voltage mv inputs : forall s,
  wf_state s -> Forall input_ok inputs ->
  Forall (fun i => get_batt_voltage (adc i) = mv) inputs ->
  exists s' ts,
    run inputs s = Some (s', ts) /\
    power_mode s' =
      if (count_events is_send (concat ts) =? 0)%nat then power_mode s
      else update_power_mode (power_mode s) mv.
Proof.
  induction inputs as [|i rest IH]; intros s Hwf Hok Hmv.
  - exists s, []. now split.
  - apply Forall_cons in Hok as [Hi Hrest].
    apply Forall_cons in Hmv as [Hv Hvrest].
    destruct (cycle_tick_full i s Hwf Hi) as (s1 & t & Hrun & Hwf1 & Hcase).
    destruct (IH s1 Hwf1 Hrest Hvrest) as (s2 & ts & Hrun2 & Hmode).
    exists s2, (t :: ts). rewrite (run_cons _ _ _ _ _ Hrun), Hrun2.
    split; [reflexivity|]. rewrite Hmode.
    cbn [concat]. rewrite count_events_app.
    destruct Hcase as [(_ & -> & Hpm & _) | (_ & -> & ->)].
    + rewrite count_send_transmit_trace, Hpm, Hv. cbn [Nat.add Nat.eqb].
      destruct (count_events is_send (concat ts) =? 0)%nat;
        [reflexivity|apply update_power_mode_settles].
    + rewrite count_sleep_trace by reflexivity. reflexivity.
Qed.

(** X2: while every sample of a run gives the same voltage, the power mode
    is settled by the first transmit cycle: at the end of the run it is the
    mode that one update at that voltage gives, however many more transmit
    cycles followed (and the start mode if nothing was sent).  Below the
    threshold a node that starts in MODE_BOOSTOFF goes to MODE_WDT and stays
    there. *)
Theorem constant_voltage_settles (mv : Z) (inputs : list input) (s : state) :
  wf_state s -> Forall input_ok inputs ->
  Forall (fun i => get_batt_voltage (adc i) = mv) inputs ->
  exists s' ts,
    run inputs s = Some (s', ts) /\
    (count_events is_send (concat ts) = 0%nat ->
       power_mode s' = power_mode s) /\
    (count_events is_send (concat ts) <> 0%nat ->
       power_mode s' = update_power_mode (power_mode s) mv) /\
    (count_events is_send (concat ts) <> 0%nat ->
     power_mode s = MODE_BOOSTOFF -> mv < POWER_MODE_WDT_THRESH ->
       power_mode s' = MODE_WDT).
Proof.
  intros Hwf Hok Hmv.
  destruct (run_constant_voltage mv inputs s Hwf Hok Hmv)
    as (s' & ts & Hrun & Hmode).
  exists s', ts. split; [exact Hrun|].
  destruct (Nat.eqb_spec (count_events is_send (concat ts)) 0) as [E|E].
  - repeat split; intros; first [assumption | contradiction].
  - split; [intros; contradiction|]. split; [intros; assumption|].
    intros _ Hm Hlt. rewrite Hmode, Hm, update_power_mode_boostoff.
    apply Z.ltb_lt in Hlt. now rewrite Hlt.
Qed.

Lemma constant_voltage_settles_witness :
  exists s' ts,
    run (replicate 50 (mkInput 418 214)) initial_state = Some (s', ts) /\
    (count_events is_send (concat ts) = 0%nat ->
       power_mode s' = power_mode initial_state) /\
    (count_events is_send (concat ts) <> 0%nat ->
       power_mode s' = update_power_mode (power_mode initial_state) 1347) /\
    (count_events is_send (concat ts) <> 0%nat ->
     power_mode initial_state = MODE_BOOSTOFF -> 1347 < POWER_MODE_WDT_THRESH ->
       power_mode s' = MODE_WDT).
Proof.
  apply (constant_voltage_settles 1347 (replicate 50 (mkInput 418 214))
                                  initial_state).
  - reflexivity.
  - unfold input_ok, temp_fits.
    repeat (apply Forall_cons_2; [vm_compute; lia|]). apply Forall_nil_2.
  - repeat (apply Forall_cons_2; [reflexivity|]). apply Forall_nil_2.
Defined.

(** ** The sleep at the end of a pass *)

Lemma count_sleeps_sleep_trace m :
  count_events is_int0_sleep (sleep_trace m) =
    (match m with MODE_BOOSTOFF => 1 | MODE_WDT => 0 end)%nat /\
  count_events is_wdt_sleep (sleep_trace m) =
    (match m with MODE_BOOSTOFF => 0 | MODE_WDT => 8 end)%nat.
Proof. destruct m; split; reflexivity. Qed.

(** X3: every pass ends with the sleep of the power mode it leaves behind,
    and with that sleep only: one sleep on INT0 followed by the 50 ms delay
    in MODE_BOOSTOFF, eight watchdog sleeps in MODE_WDT.  On a transmit
    cycle that is the mode just updated from the new sample, while the
    packet sent on the same pass still reports the mode from before. *)
Theorem sleep_follows_new_mode (s : state) (i : input) :
  wf_state s -> input_ok i ->
  exists s' t work,
    cycle_tick i s = Some (tt, s', t) /\
    t = work ++ sleep_trace (power_mode s') /\
    count_events is_int0_sleep work = 0%nat /\
    count_events is_wdt_sleep work = 0%nat /\
    count_events is_int0_sleep t =
      (match power_mode s' with MODE_BOOSTOFF => 1 | MODE_WDT => 0 end)%nat /\
    count_events is_wdt_sleep t =
      (match power_mode s' with MODE_BOOSTOFF => 0 | MODE_WDT => 8 end)%nat /\
    (wakes s = WAKE_FREQ ->
       power_mode s' =
         update_power_mode (power_mode s) (get_batt_voltage (adc i)) /\
       sent_packets t =
         [until_nul (packet_text (seqid s) (get_batt_voltage (adc i))
                                 (temperature i) (power_mode s))]) /\
    (wakes s <> WAKE_FREQ -> work = [] /\ power_mode s' = power_mode s).
Proof.
  intros Hwf Hok.
  destruct (cycle_tick_full i s Hwf Hok) as (s' & t & Hrun & _ & Hcase).
  destruct (count_sleeps_sleep_trace (power_mode s')) as [Hi0 Hwd].
  destruct Hcase as [(Hw & -> & Hpm & _) | (Hw & -> & Hs')].
  - eexists s', _, _. split; [exact Hrun|]. split; [reflexivity|].
    rewrite !count_events_app, Hi0, Hwd.
    repeat split; try reflexivity.
    + exact Hpm.
    + rewrite sent_packets_app, sent_sleep_trace. reflexivity.
    + contradiction.
    + contradiction.
  - exists s', (sleep_trace (power_mode s')), []. split; [exact Hrun|].
    rewrite Hi0, Hwd. repeat split; try reflexivity; try contradiction.
    now rewrite Hs'.
Qed.

Lemma sleep_follows_new_mode_witness :
  exists s' t work,
    cycle_tick (mkInput 300 214) initial_state = Some (tt, s', t) /\
    t = work ++ sleep_trace (power_mode s') /\
    count_events is_int0_sleep work = 0%nat /\
    count_events is_wdt_sleep work = 0%nat /\
    count_events is_int0_sleep t =
      (match power_mode s' with MODE_BOOSTOFF => 1 | MODE_WDT => 0 end)%nat /\
    count_events is_wdt_sleep t =
      (match power_mode s' with MODE_BOOSTOFF => 0 | MODE_WDT => 8 end)%nat /\
    (wakes initial_state = WAKE_FREQ ->
       power_mode s' =
         update_power_mode (power_mode initial_state) (get_batt_voltage 300) /\
       sent_packets t =
         [until_nul (packet_text (seqid initial_state) (get_batt_voltage 300)
                                 214 (power_mode initial_state))]) /\
    (wakes initial_state <> WAKE_FREQ ->
       work = [] /\ power_mode s' = power_mode initial_state).
Proof.
  apply (sleep_follows_new_mode initial_state (mkInput 300 214)).
  - reflexivity.
  - unfold input_ok, temp_fits. vm_compute. lia.
Defined.

(** ** How often a node transmits *)

Lemma wake_schedule_is_for n : forall w,
  wake_schedule n w = wake_schedule_for WAKE_FREQ n w.
Proof.
  induction n as [|n IH]; intros w; simpl; [reflexivity|].
  now rewrite !IH.
Qed.

Lemma wake_schedule_for_sum wf n : forall w,
  1 <= w <= wf -> wf <= 255 ->
  Z.of_nat (sum_list (wake_schedule_for wf n w)) =
  (Z.of_nat n + w - 1) / wf.
Proof.
  induction n as [|n IH]; intros w Hw Hwf.
  - simpl. rewrite Z.div_small; lia.
  - cbn [wake_schedule_for]. rewrite Nat2Z.inj_succ.
    destruct (Z.eqb_spec w wf) as [->|Hne].
    + cbn [sum_list sum_list_with]. rewrite Nat2Z.inj_add, IH by lia.
      replace (Z.succ (Z.of_nat n) + wf - 1) with (Z.of_nat n + 1 - 1 + 1 * wf)
        by lia.
      rewrite Z.div_add by lia. simpl. lia.
    + cbn [sum_list sum_list_with].
      assert (uint8 (w + 1) = w + 1) as ->
        by (unfold uint8; rewrite Z.mod_small; lia).
      rewrite Nat.add_0_l, IH by lia. f_equal. lia.
Qed.

Lemma wake_schedule_for_lookup wf n : forall w j,
  1 <= w <= wf -> wf <= 255 -> (j < n)%nat ->
  wake_schedule_for wf n w !! j =
  Some (if (Z.of_nat j + w) mod wf =? 0 then 1%nat else 0%nat).
Proof.
  induction n as [|n IH]; intros w j Hw Hwf Hj; [lia|].
  cbn [wake_schedule_for].
  destruct j as [|j].
  - rewrite Z.add_0_l.
    destruct (Z.eqb_spec w wf) as [->|Hne]; cbn.
    + rewrite Z.mod_same by lia. reflexivity.
    + destruct (Z.eqb_spec (w mod wf) 0) as [E|_]; [|reflexivity].
      rewrite Z.mod_small in E by lia. lia.
  - destruct (Z.eqb_spec w wf) as [->|Hne]; cbn [lookup list_lookup].
    + rewrite IH by lia.
      replace (Z.of_nat (S j) + wf) with (Z.of_nat j + 1 + 1 * wf) by lia.
      now rewrite Z.mod_add by lia.
    + assert (uint8 (w + 1) = w + 1) as ->
        by (unfold uint8; rewrite Z.mod_small; lia).
      rewrite IH by lia.
      replace (Z.of_nat (S j) + w) with (Z.of_nat j + (w + 1)) by lia.
      reflexivity.
Qed.

Lemma run_length inputs : forall s s' ts,
  run inputs s = Some (s', ts) -> length ts = length inputs.
Proof.
  induction inputs as [|i rest IH]; intros s s' ts H; simpl in H.
  - now injection H as <- <-.
  - destruct (cycle_tick i s) as [[[[] s1] t]|]; [|discriminate].
    destruct (run rest s1) as [[s2 ts2]|] eqn:E; [|discriminate].
    injection H as <- <-. simpl. f_equal. eapply IH, E.
Qed.

(** X4: after power-on the node transmits on the first pass and on every
    fifth pass after it: pass number [j+1] sends one packet when [j] is a
    multiple of WAKE_FREQ and none otherwise, so [n] passes send
    [(n + WAKE_FREQ - 1) / WAKE_FREQ] packets. *)
Theorem transmissions_in_n_passes (inputs : list input) :
  Forall input_ok inputs ->
  exists s' ts,
    run inputs initial_state = Some (s', ts) /\
    length ts = length inputs /\
    Z.of_nat (count_events is_send (concat ts)) =
      (Z.of_nat (length inputs) + WAKE_FREQ - 1) / WAKE_FREQ /\
    (forall j t, ts !! j = Some t ->
       count_events is_send t =
         if Z.of_nat j mod WAKE_FREQ =? 0 then 1%nat else 0%nat).
Proof.
  intros Hok.
  destruct (run_schedule inputs initial_state eq_refl Hok)
    as (s' & ts & Hrun & _ & Hsched).
  pose proof (run_length _ _ _ _ Hrun) as Hlen.
  rewrite wake_schedule_is_for in Hsched.
  change (wakes initial_state) with WAKE_FREQ in Hsched.
  exists s', ts. split; [exact Hrun|]. split; [exact Hlen|]. split.
  - rewrite count_events_concat, Hsched.
    apply wake_schedule_for_sum; unfold WAKE_FREQ; lia.
  - intros j t Hj.
    assert (j < length inputs)%nat as Hlt
      by (rewrite <- Hlen; eapply lookup_lt_Some, Hj).
    pose proof (wake_schedule_for_lookup WAKE_FREQ (length inputs) WAKE_FREQ j)
      as Hl.
    rewrite <- Hsched in Hl.
    rewrite list_lookup_fmap, Hj in Hl.
    specialize (Hl ltac:(unfold WAKE_FREQ; lia) ltac:(unfold WAKE_FREQ; lia) Hlt).
    cbn in Hl. injection Hl as ->.
    replace (Z.of_nat j + WAKE_FREQ) with (Z.of_nat j + 1 * WAKE_FREQ) by lia.
    now rewrite Z.mod_add by (unfold WAKE_FREQ; lia).
Qed.

Lemma transmissions_in_n_passes_witness :
  exists s' ts,
    run (replicate 23 (mkInput 987 214)) initial_state = Some (s', ts) /\
    length ts = length (replicate 23 (mkInput 987 214)) /\
    Z.of_nat (count_events is_send (concat ts)) =
      (Z.of_nat (length (replicate 23 (mkInput 987 214))) + WAKE_FREQ - 1)
        / WAKE_FREQ /\
    (forall j t, ts !! j = Some t ->
       count_events is_send t =
         if Z.of_nat j mod WAKE_FREQ =? 0 then 1%nat else 0%nat).
Proof.
  apply (transmissions_in_n_passes (replicate 23 (mkInput 987 214))).
  unfold input_ok, temp_fits.
  repeat (apply Forall_cons_2; [vm_compute; lia|]). apply Forall_nil_2.
Defined.

(** ** The cycle of the sequence ids *)

Lemma lowercase_cases c :
  lowercase c -> exists r, (r < 26)%nat /\ c = ascii_of_nat (97 + r).
Proof.
  intros H. exists (nat_of_ascii c - 97)%nat. unfold lowercase in H.
  split; [lia|].
  replace (97 + (nat_of_ascii c - 97))%nat with (nat_of_ascii c) by lia.
  now rewrite ascii_nat_embedding.
Qed.

Ltac below_26 r :=
  do 26 (destruct r as [|r]; [vm_compute; try lia; try discriminate;
                              try reflexivity|]); try lia.

Lemma next_seqid_lowercase c :
  lowercase c ->
  lowercase (next_seqid c) /\ next_seqid c <> "a"%char /\ next_seqid c <> c.
Proof.
  intros H. destruct (lowercase_cases c H) as (r & Hr & ->). clear H.
  unfold lowercase.
  split; [|split]; below_26 r.
Qed.

Lemma next_seqid_period c :
  lowercase c -> c <> "a"%char -> Nat.iter 25 next_seqid c = c.
Proof.
  intros H Ha. destruct (lowercase_cases c H) as (r & Hr & ->). clear H.
  destruct r as [|r]; [now elim Ha|]. clear Ha.
  do 25 (destruct r as [|r]; [reflexivity|]). lia.
Qed.

Lemma next_seqid_no_shorter_period c k :
  lowercase c -> (0 < k < 25)%nat -> Nat.iter k next_seqid c <> c.
Proof.
  intros H Hk. destruct (lowercase_cases c H) as (r & Hr & ->). clear H.
  destruct k as [|k]; [lia|].
  do 24 (destruct k as [|k]; [clear Hk; below_26 r|]). lia.
Qed.

(** X5: the step from one sequence id to the next (lines 189-193), on any
    lower-case letter: the next id is again a lower-case letter, it is
    never ['a'] and never the id itself; from any id other than ['a'] the
    25th step is the first that comes back to it. *)
Theorem next_seqid_cycle (c : ascii) :
  lowercase c ->
  lowercase (next_seqid c) /\ next_seqid c <> "a"%char /\
  next_seqid c <> c /\
  (forall k, (0 < k < 25)%nat -> Nat.iter k next_seqid c <> c) /\
  (c <> "a"%char -> Nat.iter 25 next_seqid c = c).
Proof.
  intros H. destruct (next_seqid_lowercase c H) as (H1 & H2 & H3).
  split; [exact H1|]. split; [exact H2|]. split; [exact H3|]. split.
  - intros k Hk. now apply next_seqid_no_shorter_period.
  - now apply next_seqid_period.
Qed.

Lemma next_seqid_cycle_witness :
  lowercase (next_seqid "z") /\ next_seqid "z" <> "a"%char /\
  next_seqid "z" <> "z"%char /\
  (forall k, (0 < k < 25)%nat -> Nat.iter k next_seqid "z"%char <> "z"%char) /\
  ("z"%char <> "a"%char -> Nat.iter 25 next_seqid "z"%char = "z"%char).
Proof. apply (next_seqid_cycle "z"). vm_compute. lia. Defined.

Lemma ascii_of_nat_inj a b :
  (a < 256)%nat -> (b < 256)%nat -> ascii_of_nat a = ascii_of_nat b -> a = b.
Proof.
  intros Ha Hb E. apply (f_equal nat_of_ascii) in E.
  now rewrite !nat_ascii_embedding in E.
Qed.

Lemma mod25_same (a b : nat) :
  (a mod 25 = b mod 25)%nat <-> (Z.of_nat b - Z.of_nat a) mod 25 = 0.
Proof.
  transitivity (Z.of_nat a mod 25 = Z.of_nat b mod 25).
  - rewrite <- !(Nat2Z.inj_mod _ 25). lia.
  - Z.div_mod_to_equations. lia.
Qed.

Lemma nth_seqid_eq_iff j k :
  (j < k)%nat ->
  nth_seqid j = nth_seqid k <->
  (1 <= j)%nat /\ (Z.of_nat k - Z.of_nat j) mod 25 = 0.
Proof.
  intros Hlt. destruct k as [|k]; [lia|]. destruct j as [|j].
  - split; [|lia]. intros E. symmetry in E.
    now apply nth_seqid_not_a in E.
  - unfold nth_seqid.
    assert (j mod 25 < 25)%nat by (apply Nat.mod_upper_bound; lia).
    assert (k mod 25 < 25)%nat by (apply Nat.mod_upper_bound; lia).
    replace (Z.of_nat (S k) - Z.of_nat (S j)) with (Z.of_nat k - Z.of_nat j)
      by lia.
    rewrite <- mod25_same. split.
    + intros E. apply ascii_of_nat_inj in E; lia.
    + intros [_ E]. now rewrite E.
Qed.

(** X6: in a run, two packets carry the same sequence id exactly when the
    earlier one is not the first packet after power-on and the number of
    packets from one to the other is a multiple of 25: a missing run of up
    to 24 packets shows in the ids. *)
Theorem seqid_repeats_every_25 (inputs : list input) :
  Forall input_ok inputs ->
  exists s' ts,
    run inputs initial_state = Some (s', ts) /\
    forall j k pj pk,
      sent_packets (concat ts) !! j = Some pj ->
      sent_packets (concat ts) !! k = Some pk ->
      (j < k)%nat ->
      (packet_seqid pj = packet_seqid pk <->
       (1 <= j)%nat /\ (Z.of_nat k - Z.of_nat j) mod 25 = 0).
Proof.
  intros Hok.
  destruct (run_seqids inputs initial_state 0 eq_refl Hok eq_refl)
    as (s' & ts & Hrun & Hids).
  exists s', ts. split; [exact Hrun|].
  pose proof (seqids_lookup _ _ Hids) as Hnth. cbn [Nat.add] in Hnth.
  intros j k pj pk Hj Hk Hlt.
  rewrite (Hnth _ _ Hj), (Hnth _ _ Hk).
  rewrite <- (nth_seqid_eq_iff j k Hlt).
  split; [now intros [= E]|now intros ->].
Qed.

Lemma seqid_repeats_every_25_witness :
  exists s' ts,
    run (replicate 6 (mkInput 987 214)) initial_state = Some (s', ts) /\
    forall j k pj pk,
      sent_packets (concat ts) !! j = Some pj ->
      sent_packets (concat ts) !! k = Some pk ->
      (j < k)%nat ->
      (packet_seqid pj = packet_seqid pk <->
       (1 <= j)%nat /\ (Z.of_nat k - Z.of_nat j) mod 25 = 0).
Proof.
  apply (seqid_repeats_every_25 (replicate 6 (mkInput 987 214))).
  unfold input_ok, temp_fits.
  repeat (apply Forall_cons_2; [vm_compute; lia|]). apply Forall_nil_2.
Defined.

(** ** The battery monitor beyond its exact range *)

Lemma get_batt_voltage_10bit r :
  0 <= r <= 1023 -> get_batt_voltage r = r * 3300 / 1024.
Proof.
  intros Hr. unfold get_batt_voltage, uint32, uint16.
  rewrite (Z.mod_small r) by lia.
  rewrite (Z.mod_small (r * 3300)) by lia.
  apply Z.mod_small. Z.div_mod_to_equations. lia.
Qed.

(** X7: over the range of the 10-bit ADC the reported voltage grows by 3
    or 4 mV with every count: [get_batt_voltage] is strictly increasing
    there, two different counts never give the same millivolts, and the
    scale runs from 0 mV at count 0 to 3296 mV at count 1023. *)
Theorem get_batt_voltage_steps (r : Z) :
  0 <= r < 1023 ->
  3 <= get_batt_voltage (r + 1) - get_batt_voltage r <= 4 /\
  (forall r', r < r' <= 1023 -> get_batt_voltage r < get_batt_voltage r') /\
  get_batt_voltage 0 = 0 /\ get_batt_voltage 1023 = 3296.
Proof.
  intros Hr. split; [|split; [|split; reflexivity]].
  - rewrite !get_batt_voltage_10bit by lia.
    Z.div_mod_to_equations. lia.
  - intros r' Hr'. rewrite !get_batt_voltage_10bit by lia.
    Z.div_mod_to_equations. lia.
Qed.

Lemma get_batt_voltage_steps_witness :
  3 <= get_batt_voltage (418 + 1) - get_batt_voltage 418 <= 4 /\
  (forall r', 418 < r' <= 1023 -> get_batt_voltage 418 < get_batt_voltage r') /\
  get_batt_voltage 0 = 0 /\ get_batt_voltage 1023 = 3296.
Proof. apply (get_batt_voltage_steps 418). lia. Defined.

(** X8: the two thresholds of the power mode in ADC counts: the sampled
    voltage is below POWER_MODE_WDT_THRESH exactly for counts up to 418 and
    above POWER_MODE_WDT_THRESH + POWER_MODE_WDT_HYST exactly for counts
    from 435 on; the sixteen counts 419..434 are the dead band. *)
Theorem power_mode_thresholds_in_counts (r : Z) :
  0 <= r <= 1023 ->
  (get_batt_voltage r < POWER_MODE_WDT_THRESH <-> r <= 418) /\
  (get_batt_voltage r > POWER_MODE_WDT_THRESH + POWER_MODE_WDT_HYST
     <-> 435 <= r) /\
  (forall m, 419 <= r <= 434 ->
     update_power_mode m (get_batt_voltage r) = m).
Proof.
  intros Hr. rewrite get_batt_voltage_10bit by lia.
  unfold POWER_MODE_WDT_THRESH, POWER_MODE_WDT_HYST.
  assert ((r * 3300 / 1024 < 1350 <-> r <= 418) /\
          (r * 3300 / 1024 > 1350 + 50 <-> 435 <= r)) as [H1 H2]
    by (Z.div_mod_to_equations; lia).
  split; [exact H1|]. split; [exact H2|].
  intros m Hband. destruct m.
  - rewrite update_power_mode_wdt.
    unfold POWER_MODE_WDT_THRESH, POWER_MODE_WDT_HYST.
    destruct (Z.gtb_spec (r * 3300 / 1024) (1350 + 50)); [lia|reflexivity].
  - rewrite update_power_mode_boostoff. unfold POWER_MODE_WDT_THRESH.
    destruct (Z.ltb_spec (r * 3300 / 1024) 1350); [lia|reflexivity].
Qed.

Lemma power_mode_thresholds_in_counts_witness :
  (get_batt_voltage 419 < POWER_MODE_WDT_THRESH <-> 419 <= 418) /\
  (get_batt_voltage 419 > POWER_MODE_WDT_THRESH + POWER_MODE_WDT_HYST
     <-> 435 <= 419) /\
  (forall m, 419 <= 419 <= 434 ->
     update_power_mode m (get_batt_voltage 419) = m).
Proof. apply (power_mode_thresholds_in_counts 419). lia. Defined.

(** X9: for any value of the 16-bit data register the product
    [r * 3300] fits the [uint32_t] it is computed in; what can wrap is the
    cast to [uint16_t]: the result is [(r * 3300) / 1024] modulo 65536, and
    it is [(r * 3300) / 1024] itself exactly for [r <= 20336]. *)
Theorem get_batt_voltage_16bit (r : Z) :
  0 <= r < 65536 ->
  r * 3300 < 2 ^ 32 /\
  get_batt_voltage r = (r * 3300 / 1024) mod 65536 /\
  (get_batt_voltage r = r * 3300 / 1024 <-> r <= 20336).
Proof.
  intros Hr.
  assert (get_batt_voltage r = (r * 3300 / 1024) mod 65536) as E.
  { unfold get_batt_voltage, uint32, uint16.
    rewrite (Z.mod_small r) by lia.
    rewrite (Z.mod_small (r * 3300)) by lia. reflexivity. }
  split; [lia|]. split; [exact E|]. rewrite E.
  Z.div_mod_to_equations. lia.
Qed.

Lemma get_batt_voltage_16bit_witness :
  20337 * 3300 < 2 ^ 32 /\
  get_batt_voltage 20337 = (20337 * 3300 / 1024) mod 65536 /\
  (get_batt_voltage 20337 = 20337 * 3300 / 1024 <-> 20337 <= 20336).
Proof. apply (get_batt_voltage_16bit 20337). lia. Defined.

(** ** The wire format keeps the readings apart *)

Lemma is_decimal_code c : is_decimal c -> (48 <= nat_of_ascii c <= 57)%nat.
Proof.
  intros (d & Hd & ->).
  assert (d = 0 \/ d = 1 \/ d = 2 \/ d = 3 \/ d = 4 \/ d = 5 \/ d = 6 \/
          d = 7 \/ d = 8 \/ d = 9) as Hc by lia.
  repeat (destruct Hc as [-> | Hc]); try subst d; vm_compute; lia.
Qed.

Lemma dec_rev_decimal fuel : forall v,
  0 <= v -> Forall is_decimal (dec_rev fuel v).
Proof.
  induction fuel as [|f IH]; intros v Hv; simpl; [constructor|].
  constructor.
  - exists (v mod 10). split; [apply Z.mod_pos_bound; lia|reflexivity].
  - destruct (v / 10 =? 0); [constructor|].
    apply IH. apply Z.div_pos; lia.
Qed.

Lemma dec_digits_decimal v : 0 <= v -> Forall is_decimal (dec_digits v).
Proof.
  intros Hv. unfold dec_digits. apply List.Forall_rev.
  now apply dec_rev_decimal.
Qed.

Lemma dec_digits_head v :
  0 <= v -> exists c l, dec_digits v = c :: l /\ is_decimal c.
Proof.
  intros Hv. pose proof (dec_digits_decimal v Hv) as Hd.
  destruct (dec_digits v) as [|c l] eqn:E.
  - apply (f_equal (@length ascii)) in E. unfold dec_digits in E.
    rewrite length_rev in E. simpl in E. lia.
  - exists c, l. split; [reflexivity|]. now apply Forall_cons in Hd as [? _].
Qed.

Lemma not_in_decimal d l :
  ~ (48 <= nat_of_ascii d <= 57)%nat -> Forall is_decimal l -> ~ In d l.
Proof.
  intros Hd Hl Hin. rewrite List.Forall_forall in Hl.
  apply Hd, is_decimal_code, Hl, Hin.
Qed.

Lemma app_delim_inj (d : ascii) : forall l1 l2 r1 r2,
  ~ In d l1 -> ~ In d l2 ->
  l1 ++ d :: r1 = l2 ++ d :: r2 -> l1 = l2 /\ r1 = r2.
Proof.
  induction l1 as [|a l1 IH]; intros [|b l2] r1 r2 H1 H2 E; simpl in *.
  - injection E as ->. now split.
  - injection E as -> _. elim H2. now left.
  - injection E as -> _. elim H1. now left.
  - injection E as -> E.
    destruct (IH l2 r1 r2) as [-> ->]; auto.
Qed.

Lemma dec_digits_inj a b :
  0 <= a -> 0 <= b -> dec_digits a = dec_digits b -> a = b.
Proof.
  intros Ha Hb E.
  rewrite <- (dec_digits_value a Ha), <- (dec_digits_value b Hb).
  now rewrite E.
Qed.

Lemma digit_char_inj a b :
  0 <= a < 10 -> 0 <= b < 10 -> digit_char a = digit_char b -> a = b.
Proof.
  intros Ha Hb E.
  rewrite <- (digit_value_char a Ha), <- (digit_value_char b Hb).
  now rewrite E.
Qed.

Lemma utoa_inj a b : utoa a = utoa b -> uint16 a = uint16 b.
Proof.
  apply dec_digits_inj; apply uint16_range.
Qed.

Lemma dtostrf_unsigned_inj a b :
  0 <= a -> 0 <= b ->
  dec_digits (a / 10) ++ ["."%char] ++ [digit_char (a mod 10)] =
  dec_digits (b / 10) ++ ["."%char] ++ [digit_char (b mod 10)] ->
  a = b.
Proof.
  intros Ha Hb E. cbn [app] in E.
  apply app_delim_inj in E as [Eq Er].
  - apply dec_digits_inj in Eq; [|apply Z.div_pos; lia..].
    injection Er as Er.
    apply digit_char_inj in Er; [|apply Z.mod_pos_bound; lia..].
    rewrite (Z.div_mod a 10), (Z.div_mod b 10) by lia. congruence.
  - apply not_in_decimal; [vm_compute; lia|].
    apply dec_digits_decimal, Z.div_pos; lia.
  - apply not_in_decimal; [vm_compute; lia|].
    apply dec_digits_decimal, Z.div_pos; lia.
Qed.

Lemma dtostrf_inj t t' : dtostrf_1_1 t = dtostrf_1_1 t' -> t = t'.
Proof.
  unfold dtostrf_1_1. intros E.
  destruct (dec_digits_head (Z.abs t / 10)) as (c & l & Hc & Hdc);
    [apply Z.div_pos; lia|].
  destruct (dec_digits_head (Z.abs t' / 10)) as (c' & l' & Hc' & Hdc');
    [apply Z.div_pos; lia|].
  apply is_decimal_code in Hdc, Hdc'.
  destruct (Z.ltb_spec t 0), (Z.ltb_spec t' 0).
  - cbn [app] in E. injection E as E.
    apply dtostrf_unsigned_inj in E; lia.
  - rewrite Hc' in E. cbn [app] in E. injection E as E _.
    subst c'. vm_compute in Hdc'. lia.
  - rewrite Hc in E. cbn [app] in E. injection E as E _.
    subst c. vm_compute in Hdc. lia.
  - cbn [app] in E. apply dtostrf_unsigned_inj in E; lia.
Qed.

Lemma dtostrf_no_X t : ~ In "X"%char (dtostrf_1_1 t).
Proof.
  unfold dtostrf_1_1. rewrite !in_app_iff.
  intros [H | [H | [H | H]]].
  - destruct (t <? 0); simpl in H; [destruct H as [H|[]]; discriminate|
                                    contradiction].
  - revert H. apply not_in_decimal; [vm_compute; lia|].
    apply dec_digits_decimal, Z.div_pos; lia.
  - destruct H as [H|[]]; discriminate.
  - revert H. apply not_in_decimal; [vm_compute; lia|].
    repeat constructor. exists (Z.abs t mod 10).
    split; [apply Z.mod_pos_bound; lia|reflexivity].
Qed.

(** The text of a packet, as a function of its four fields, is one to
    one. *)
Lemma packet_text_injective (c c' : ascii) (mv mv' t t' : Z)
    (m m' : power_mode_t) :
  packet_text c mv t m = packet_text c' mv' t' m' ->
  c = c' /\ uint16 mv = uint16 mv' /\ t = t' /\ m = m'.
Proof.
  unfold packet_text, HOPS. cbn [app]. intros E.
  injection E as Ec E.
  apply app_delim_inj in E as [Emv E];
    [|apply not_in_decimal;
      [vm_compute; lia|apply dec_digits_decimal, uint16_range]..].
  apply app_delim_inj in E as [Et E]; [|apply dtostrf_no_X..].
  split; [exact Ec|]. split; [now apply utoa_inj|].
  split; [now apply dtostrf_inj|].
  destruct m, m'; first [reflexivity | vm_compute in E; discriminate].
Qed.

Lemma get_batt_voltage_uint16 r : uint16 (get_batt_voltage r) = get_batt_voltage r.
Proof.
  unfold get_batt_voltage, uint16. apply Z.mod_small.
  apply Z.mod_pos_bound. reflexivity.
Qed.

(** X10: the packet that the encoder composes, and that a transmit cycle
    hands to the radio, determines the readings it was composed from.  For
    two states whose sequence id is not NUL and any two inputs, the packets
    that [compose_packet] leaves in [packetbuf] are the same bytes exactly
    when sequence id, sampled voltage, temperature and power mode are the
    same; on a transmit cycle that packet is the one sent. *)
Theorem sent_packet_determines_readings (s1 s2 : state) (i1 i2 : input) :
  wf_state s1 -> wf_state s2 -> input_ok i1 -> input_ok i2 ->
  seqid s1 <> NUL -> seqid s2 <> NUL ->
  exists pkt1 pkt2,
    encode_packet i1 s1 = Some pkt1 /\
    encode_packet i2 s2 = Some pkt2 /\
    (pkt1 = pkt2 <->
     seqid s1 = seqid s2 /\
     get_batt_voltage (adc i1) = get_batt_voltage (adc i2) /\
     temperature i1 = temperature i2 /\
     power_mode s1 = power_mode s2) /\
    (wakes s1 = WAKE_FREQ ->
     exists s' t, cycle_tick i1 s1 = Some (tt, s', t) /\
                  sent_packets t = [pkt1]) /\
    (wakes s2 = WAKE_FREQ ->
     exists s' t, cycle_tick i2 s2 = Some (tt, s', t) /\
                  sent_packets t = [pkt2]).
Proof.
  intros Hwf1 Hwf2 Hok1 Hok2 Hc1 Hc2.
  pose proof (encode_packet_eq i1 s1 Hwf1 Hok1) as E1.
  pose proof (encode_packet_eq i2 s2 Hwf2 Hok2) as E2.
  rewrite until_nul_free in E1 by (now apply packet_text_nul_free).
  rewrite until_nul_free in E2 by (now apply packet_text_nul_free).
  eexists _, _. split; [exact E1|]. split; [exact E2|].
  split; [|split].
  - split.
    + intros E. apply packet_text_injective in E as (Ec & Emv & Et & Em).
      rewrite !get_batt_voltage_uint16 in Emv. auto.
    + intros (-> & -> & -> & ->). reflexivity.
  - intros Hw.
    destruct (cycle_tick_transmit i1 s1 Hwf1 Hok1 Hw)
      as ([] & s' & t & Hrun & -> & _).
    eexists s', _. split; [exact Hrun|].
    rewrite until_nul_free by (now apply packet_text_nul_free).
    simpl. now rewrite sent_sleep_trace.
  - intros Hw.
    destruct (cycle_tick_transmit i2 s2 Hwf2 Hok2 Hw)
      as ([] & s' & t & Hrun & -> & _).
    eexists s', _. split; [exact Hrun|].
    rewrite until_nul_free by (now apply packet_text_nul_free).
    simpl. now rewrite sent_sleep_trace.
Qed.

Lemma sent_packet_determines_readings_witness :
  exists pkt1 pkt2,
    encode_packet (mkInput 987 214) initial_state = Some pkt1 /\
    encode_packet (mkInput 418 (-53)) (set_power_mode MODE_WDT initial_state)
      = Some pkt2 /\
    (pkt1 = pkt2 <->
     seqid initial_state = seqid (set_power_mode MODE_WDT initial_state) /\
     get_batt_voltage (adc (mkInput 987 214)) =
       get_batt_voltage (adc (mkInput 418 (-53))) /\
     temperature (mkInput 987 214) = temperature (mkInput 418 (-53)) /\
     power_mode initial_state =
       power_mode (set_power_mode MODE_WDT initial_state)) /\
    (wakes initial_state = WAKE_FREQ ->
     exists s' t, cycle_tick (mkInput 987 214) initial_state
                    = Some (tt, s', t) /\
                  sent_packets t = [pkt1]) /\
    (wakes (set_power_mode MODE_WDT initial_state) = WAKE_FREQ ->
     exists s' t, cycle_tick (mkInput 418 (-53))
                    (set_power_mode MODE_WDT initial_state)
                    = Some (tt, s', t) /\
                  sent_packets t = [pkt2]).
Proof.
  apply (sent_packet_determines_readings initial_state
           (set_power_mode MODE_WDT initial_state)
           (mkInput 987 214) (mkInput 418 (-53))).
  - reflexivity.
  - reflexivity.
  - unfold input_ok, temp_fits. vm_compute. lia.
  - unfold input_ok, temp_fits. vm_compute. lia.
  - simpl. discriminate.
  - simpl. discriminate.
Defined.

(** * The older nodes *)

(** ** Their encoder *)

Lemma itoa_nul_free z : nul_free (itoa z).
Proof.
  unfold itoa. destruct (Z.ltb_spec z 0).
  - constructor; [discriminate|]. apply dec_digits_nul_free. lia.
  - now apply dec_digits_nul_free.
Qed.

Lemma itoa_length z : int8_range z -> (length (itoa z) <= 4)%nat.
Proof.
  unfold int8_range, itoa. intros Hz. destruct (Z.ltb_spec z 0).
  - cbn [length]. apply le_n_S. apply (dec_digits_length_le 2).
    change (10 ^ Z.of_nat 3) with 1000. lia.
  - etransitivity; [apply (dec_digits_length_le 2)|lia].
    change (10 ^ Z.of_nat 3) with 1000. lia.
Qed.

Lemma compose_packet_basic_ok hops node_id i dec frac s :
  Scraper.config_ok hops node_id ->
  int8_range dec -> int8_range frac ->
  wf_state s -> seqid s <> NUL ->
  runs_to (compose_packet_basic hops node_id i dec frac) s (fun _ s' t =>
    t = [Call_get_batt_voltage (get_batt_voltage (adc i))] /\
    frame s s' /\
    pending s' (Scraper.packet_text hops node_id (seqid s)
                  (get_batt_voltage (adc i)) dec frac) []).
Proof.
  intros (Hfh & Hfn & Hcfg) Hdec Hfrac Hwf Hc. unfold compose_packet_basic.
  set (mv := get_batt_voltage (adc i)).
  pose proof (utoa_length mv) as Hlmv.
  pose proof (itoa_length dec Hdec) as Hld.
  pose proof (itoa_length frac Hfrac) as Hlf.
  assert (length (itoa dec ++ "."%char :: itoa frac) <= 9)%nat as Hlt
    by (rewrite length_app; cbn [length]; lia).
  eapply runs_to_bind, runs_to_modify.
  assert (holds (set_p 0 s) []) as Hb by (now repeat split).
  assert (frame s (set_p 0 s)) as Hfr by (now repeat split).
  buf_step write_at_p_ok Hb Hfr as s1 Hb1 Hfr1.
  buf_step p_add_strlen_ok Hb1 Hfr1 as s2 Hb2 Hfr2; [exact Hfh|].
  eapply runs_to_bind, runs_to_gets.
  replace (seqid s2) with (seqid s) by (symmetry; apply Hfr2).
  buf_step write_at_p_ok Hb2 Hfr2 as s3 Hb3 Hfr3.
  buf_step p_add_strlen_ok Hb3 Hfr3 as s4 Hb4 Hfr4;
    [now repeat constructor|].
  unfold call_get_batt_voltage.
  eapply runs_to_bind, runs_to_bind, runs_to_emit, runs_to_ret.
  fold mv.
  buf_step write_at_p_ok Hb4 Hfr4 as s5 Hb5 Hfr5.
  buf_step p_add_strlen_ok Hb5 Hfr5 as s6 Hb6 Hfr6;
    [constructor; [discriminate|apply utoa_nul_free]|].
  buf_step write_at_p_ok Hb6 Hfr6 as s7 Hb7 Hfr7.
  buf_step p_add_strlen_ok Hb7 Hfr7 as s8 Hb8 Hfr8.
  { constructor; [discriminate|]. apply Forall_app_2; [apply itoa_nul_free|].
    constructor; [discriminate|apply itoa_nul_free]. }
  buf_step put_char_ok Hb8 Hfr8 as s9 Hb9 Hfr9.
  buf_step write_at_p_ok Hb9 Hfr9 as s10 Hb10 Hfr10.
  buf_step p_add_strlen_ok Hb10 Hfr10 as s11 Hb11 Hfr11; [exact Hfn|].
  buf_step put_char_ok Hb11 Hfr11 as s12 Hb12 Hfr12.
  eapply runs_to_weaken; [eapply store_char_ok; [exact Hb12|buf_side]|].
  intros [] s' t (-> & Hf & Hp).
  pose proof (frame_trans _ _ _ Hfr12 Hf) as Hfr'.
  match type of Hp with
  | pending _ ?l _ =>
      replace l with (Scraper.packet_text hops node_id (seqid s) mv dec frac)
        in Hp
        by (unfold Scraper.packet_text;
            repeat (progress (rewrite <- ?app_assoc; cbn [app]));
            reflexivity)
  end.
  split; [reflexivity|]. split; [exact Hfr'|exact Hp].
Qed.

Lemma scraper_packet_text_length hops node_id c mv dec frac :
  length (Scraper.packet_text hops node_id c mv dec frac) =
  (length hops + length node_id + length (utoa mv) + length (itoa dec) +
   length (itoa frac) + 6)%nat.
Proof.
  unfold Scraper.packet_text. rewrite !length_app. cbn [length]. lia.
Qed.

Lemma scraper_packet_text_nul_free hops node_id c mv dec frac :
  nul_free hops -> nul_free node_id -> c <> NUL ->
  nul_free (Scraper.packet_text hops node_id c mv dec frac).
Proof.
  intros Hh Hn Hc. unfold Scraper.packet_text, nul_free.
  repeat first
    [ assumption | apply utoa_nul_free | apply itoa_nul_free
    | apply Forall_nil_2
    | apply Forall_cons_2; [first [assumption | discriminate]|]
    | apply Forall_app_2 ].
Qed.

(** X11: the encoder of the older nodes cannot run over [packetbuf]: for
    any ADC result and any two [int8_t] from the temperature sensor, with
    hop count and node id of at most 44 characters together, every store
    falls inside the buffer, the buffer then holds the packet
    [<HOPS><SEQID>V<mv>T<dec>.<frac>[<NODEID>]] and its NUL, and the two
    take at most [length HOPS + length NODE_ID + 20] bytes. *)
Theorem scraper_packet_fits (hops node_id : list ascii) (i : input)
    (dec frac : Z) (s : state) :
  Scraper.config_ok hops node_id ->
  int8_range dec -> int8_range frac ->
  wf_state s -> seqid s <> NUL ->
  let text := Scraper.packet_text hops node_id (seqid s)
                (get_batt_voltage (adc i)) dec frac in
  encode_packet_basic hops node_id i dec frac s = Some text /\
  (length text + 1 <= length hops + length node_id + 20)%nat /\
  (length text + 1 <= PACKETBUF_SIZE)%nat.
Proof.
  intros Hcfg Hdec Hfrac Hwf Hc text.
  destruct (compose_packet_basic_ok hops node_id i dec frac s
              Hcfg Hdec Hfrac Hwf Hc)
    as ([] & s1 & t1 & Hrun & _ & _ & Hp).
  fold text in Hp.
  destruct (strlen_packetbuf_ok _ _ Hp)
    as (n & s2 & t2 & Hlen & _ & _ & -> & Htake).
  destruct Hcfg as (Hfh & Hfn & Hcfg).
  assert (nul_free text) as Hfree
    by (now apply scraper_packet_text_nul_free).
  rewrite until_nul_free in Htake, Hlen by exact Hfree.
  split.
  - unfold encode_packet_basic. rewrite Hrun.
    unfold strlen_packetbuf in Hlen.
    destruct (strlen_at (packetbuf s1) 0) as [k|]; [|discriminate].
    assert (k = length text) as -> by congruence.
    now rewrite Htake.
  - pose proof (utoa_length (get_batt_voltage (adc i))).
    pose proof (itoa_length dec Hdec). pose proof (itoa_length frac Hfrac).
    unfold text. rewrite scraper_packet_text_length.
    unfold PACKETBUF_SIZE. lia.
Qed.

Lemma scraper_packet_fits_witness :
  let text := Scraper.packet_text
                (String.list_ascii_of_string "2")
                (String.list_ascii_of_string "JH0")
                (seqid initial_state) (get_batt_voltage 1023) (-128) (-128) in
  encode_packet_basic (String.list_ascii_of_string "2")
    (String.list_ascii_of_string "JH0") (mkInput 1023 0) (-128) (-128)
    initial_state = Some text /\
  (length text + 1 <= length (String.list_ascii_of_string "2") +
                      length (String.list_ascii_of_string "JH0") + 20)%nat /\
  (length text + 1 <= PACKETBUF_SIZE)%nat.
Proof.
  apply (scraper_packet_fits (String.list_ascii_of_string "2")
           (String.list_ascii_of_string "JH0") (mkInput 1023 0) (-128) (-128)
           initial_state).
  - unfold Scraper.config_ok, nul_free. simpl.
    repeat split; [repeat constructor; discriminate..|lia].
  - unfold int8_range. lia.
  - unfold int8_range. lia.
  - reflexivity.
  - discriminate.
Defined.

(** ** Their main loop *)

Lemma scraper_go_to_sleep_eq vdet s :
  Scraper.go_to_sleep vdet s =
  Some (tt, s, if vdet then [Sleep_INT0; Call_delay_ms 50]
               else [Sleep_WDTO_8S]).
Proof. destruct vdet; reflexivity. Qed.

Lemma scraper_cycle_tick_cases hops node_id wf txp vdet r s :
  Scraper.config_ok hops node_id -> Scraper.reading_ok r ->
  wf_state s -> seqid s <> NUL ->
  exists s' t,
    Scraper.cycle_tick hops node_id wf txp vdet r s = Some (tt, s', t) /\
    wf_state s' /\
    ((wakes s = wf /\ wakes s' = 1 /\ seqid s' = next_seqid (seqid s) /\
      sent_packets t =
        [Scraper.packet_text hops node_id (seqid s)
           (get_batt_voltage (Scraper.r_adc r))
           (Scraper.temp_dec r) (Scraper.temp_frac r)] /\
      count_events is_send t = 1%nat)
     \/
     (wakes s <> wf /\ wakes s' = uint8 (wakes s + 1) /\
      seqid s' = seqid s /\ sent_packets t = [] /\
      count_events is_send t = 0%nat)).
Proof.
  intros Hcfg [Hdec Hfrac] Hwf Hc. unfold Scraper.cycle_tick.
  destruct (Z.eq_dec (wakes s) wf) as [Hw|Hw].
  - assert (runs_to (Scraper.transmit_cycle hops node_id txp r) s
              (fun _ s' t =>
                 wf_state s' /\ wakes s' = 1 /\
                 seqid s' = next_seqid (seqid s) /\
                 t = [Call_get_batt_voltage (get_batt_voltage (Scraper.r_adc r));
                      Call_rf69_send
                        (Scraper.packet_text hops node_id (seqid s)
                           (get_batt_voltage (Scraper.r_adc r))
                           (Scraper.temp_dec r) (Scraper.temp_frac r))
                        (length
                           (Scraper.packet_text hops node_id (seqid s)
                              (get_batt_voltage (Scraper.r_adc r))
                              (Scraper.temp_dec r) (Scraper.temp_frac r)))
                        txp;
                      Call_delay_ms 10])) as Htx.
    { unfold Scraper.transmit_cycle.
      eapply runs_to_bind, runs_to_weaken;
        [now apply compose_packet_basic_ok|].
      intros [] s1 t1 (-> & (E1 & E2 & E3 & E4) & Hp). simpl in Hp.
      eapply runs_to_bind, runs_to_weaken; [apply strlen_packetbuf_ok, Hp|].
      intros n s2 t2 (-> & -> & -> & Htake).
      rewrite until_nul_free in *
        by (destruct Hcfg as (? & ? & _);
            now apply scraper_packet_text_nul_free).
      eapply runs_to_bind, runs_to_gets.
      eapply runs_to_bind, runs_to_emit.
      eapply runs_to_bind, runs_to_emit.
      eapply runs_to_bind, runs_to_modify.
      eapply runs_to_bind, runs_to_gets.
      apply runs_to_modify.
      cbn -[Scraper.packet_text next_seqid take].
      rewrite Htake, E1. repeat split. apply Hp. }
    destruct Htx as ([] & s' & t & Hrun & Hwf' & Hw' & Hid & ->).
    eexists s', _. split.
    + unfold bind, gets. apply Z.eqb_eq in Hw. rewrite Hw.
      fold (@bind unit unit). unfold bind. rewrite Hrun.
      rewrite scraper_go_to_sleep_eq. reflexivity.
    + split; [exact Hwf'|]. left.
      split; [exact Hw|]. split; [exact Hw'|]. split; [exact Hid|].
      destruct vdet; split; reflexivity.
  - eexists _, _. split.
    + unfold bind, gets, modify. apply Z.eqb_neq in Hw. rewrite Hw.
      rewrite scraper_go_to_sleep_eq. reflexivity.
    + split; [exact Hwf|]. right.
      split; [exact Hw|]. destruct vdet; repeat split.
Qed.

Lemma scraper_run_ok hops node_id wf txp vdet readings : forall s k,
  Scraper.config_ok hops node_id ->
  Forall Scraper.reading_ok readings ->
  wf_state s -> seqid s = nth_seqid k ->
  exists s' ts,
    Scraper.run hops node_id wf txp vdet readings s = Some (s', ts) /\
    length ts = length readings /\
    map (count_events is_send) ts =
      wake_schedule_for wf (length readings) (wakes s) /\
    map (fun pkt : list ascii => pkt !! length hops)
        (sent_packets (concat ts)) =
    map (fun j => Some (nth_seqid j))
        (seq k (length (sent_packets (concat ts)))).
Proof.
  induction readings as [|r rest IH]; intros s k Hcfg Hok Hwf Hid.
  - exists s, []. now repeat split.
  - apply Forall_cons in Hok as [Hr Hrest].
    assert (seqid s <> NUL) as Hc
      by (rewrite Hid; apply lowercase_not_nul, nth_seqid_lowercase).
    destruct (scraper_cycle_tick_cases hops node_id wf txp vdet r s
                Hcfg Hr Hwf Hc) as (s1 & t & Hrun & Hwf1 & Hcase).
    cbn [Scraper.run]. rewrite Hrun.
    destruct Hcase as [(Hw & Hw1 & Hid1 & Hsent & Hcnt)
                      |(Hw & Hw1 & Hid1 & Hsent & Hcnt)].
    + rewrite Hid, next_seqid_nth in Hid1.
      destruct (IH s1 (S k) Hcfg Hrest Hwf1 Hid1)
        as (s2 & ts & -> & Hlen & Hsched & Hids).
      exists s2, (t :: ts). split; [reflexivity|].
      split; [simpl; now rewrite Hlen|]. split.
      * cbn [map length wake_schedule_for].
        apply Z.eqb_eq in Hw. rewrite Hw, Hcnt, Hsched, Hw1. reflexivity.
      * cbn [concat]. rewrite sent_packets_app, Hsent.
        cbn [app map length seq]. rewrite Hids. f_equal.
        unfold Scraper.packet_text. rewrite Hid.
        apply list_lookup_middle. reflexivity.
    + rewrite Hid in Hid1.
      destruct (IH s1 k Hcfg Hrest Hwf1 Hid1)
        as (s2 & ts & -> & Hlen & Hsched & Hids).
      exists s2, (t :: ts). split; [reflexivity|].
      split; [simpl; now rewrite Hlen|]. split.
      * cbn [map length wake_schedule_for].
        apply Z.eqb_neq in Hw. rewrite Hw, Hcnt, Hsched, Hw1. reflexivity.
      * cbn [concat]. rewrite sent_packets_app, Hsent. exact Hids.
Qed.

Lemma seqids_lookup_at (n : nat) (pkts : list (list ascii)) : forall k,
  map (fun pkt : list ascii => pkt !! n) pkts =
    map (fun j => Some (nth_seqid j)) (seq k (length pkts)) ->
  forall j pkt, pkts !! j = Some pkt -> pkt !! n = Some (nth_seqid (k + j)).
Proof.
  induction pkts as [|q pkts IH]; intros k Hmap j pkt Hj.
  - discriminate.
  - cbn [map length seq] in Hmap. injection Hmap as Hq Hmap.
    destruct j as [|j]; cbn in Hj.
    + injection Hj as <-. now rewrite Nat.add_0_r.
    + rewrite <- Nat.add_succ_comm. now apply IH.
Qed.

(** X12: an older node with [1 <= WAKE_FREQ <= 255] transmits on its first
    pass after power-on and then on every [WAKE_FREQ]-th pass, whichever of
    its two sleeps it was built with; [n] passes send
    [(n + WAKE_FREQ - 1) / WAKE_FREQ] packets, and with [WAKE_FREQ = 1], as
    the scraper node has it, every pass sends one.  The packets carry the
    sequence ids ['a'], ['b'], ..., ['z'], ['b'], ... right after the hop
    count. *)
Theorem scraper_cadence (hops node_id : list ascii) (wf txp : Z)
    (vdet : bool) (readings : list Scraper.reading) :
  Scraper.config_ok hops node_id -> 1 <= wf <= 255 ->
  Forall Scraper.reading_ok readings ->
  exists s' ts,
    Scraper.run hops node_id wf txp vdet readings (Scraper.initial_state wf)
      = Some (s', ts) /\
    Z.of_nat (count_events is_send (concat ts)) =
      (Z.of_nat (length readings) + wf - 1) / wf /\
    (forall j t, ts !! j = Some t ->
       count_events is_send t =
         if Z.of_nat j mod wf =? 0 then 1%nat else 0%nat) /\
    (wf = 1 -> forall j t, ts !! j = Some t ->
       count_events is_send t = 1%nat) /\
    (forall j pkt, sent_packets (concat ts) !! j = Some pkt ->
       pkt !! length hops = Some (nth_seqid j)).
Proof.
  intros Hcfg Hwf Hok.
  destruct (scraper_run_ok hops node_id wf txp vdet readings
              (Scraper.initial_state wf) 0 Hcfg Hok eq_refl eq_refl)
    as (s' & ts & Hrun & Hlen & Hsched & Hids).
  assert (wakes (Scraper.initial_state wf) = wf) as Hw0
    by (simpl; unfold uint8; rewrite Z.mod_small; lia).
  rewrite Hw0 in Hsched.
  assert (forall j t, ts !! j = Some t ->
            count_events is_send t =
              if Z.of_nat j mod wf =? 0 then 1%nat else 0%nat) as Hpass.
  { intros j t Hj.
    assert (j < length readings)%nat as Hlt
      by (rewrite <- Hlen; eapply lookup_lt_Some, Hj).
    pose proof (wake_schedule_for_lookup wf (length readings) wf j
                  ltac:(lia) ltac:(lia) Hlt) as Hl.
    rewrite <- Hsched, list_lookup_fmap, Hj in Hl.
    cbn in Hl. injection Hl as ->.
    replace (Z.of_nat j + wf) with (Z.of_nat j + 1 * wf) by lia.
    now rewrite Z.mod_add by lia. }
  exists s', ts. split; [exact Hrun|]. split; [|split; [exact Hpass|split]].
  - rewrite count_events_concat, Hsched.
    apply wake_schedule_for_sum; lia.
  - intros -> j t Hj. rewrite (Hpass j t Hj).
    now rewrite Z.mod_1_r.
  - pose proof (seqids_lookup_at _ _ _ Hids) as Hnth.
    cbn [Nat.add] in Hnth. exact Hnth.
Qed.

Lemma scraper_cadence_witness :
  exists s' ts,
    Scraper.run (String.list_ascii_of_string "2")
      (String.list_ascii_of_string "JH0") 1 10 true
      (replicate 4 (Scraper.mkReading 987 21 4)) (Scraper.initial_state 1)
      = Some (s', ts) /\
    Z.of_nat (count_events is_send (concat ts)) =
      (Z.of_nat (length (replicate 4 (Scraper.mkReading 987 21 4))) + 1 - 1)
        / 1 /\
    (forall j t, ts !! j = Some t ->
       count_events is_send t =
         if Z.of_nat j mod 1 =? 0 then 1%nat else 0%nat) /\
    (1 = 1 -> forall j t, ts !! j = Some t ->
       count_events is_send t = 1%nat) /\
    (forall j pkt, sent_packets (concat ts) !! j = Some pkt ->
       pkt !! length (String.list_ascii_of_string "2")
         = Some (nth_seqid j)).
Proof.
  apply (scraper_cadence (String.list_ascii_of_string "2")
           (String.list_ascii_of_string "JH0") 1 10 true
           (replicate 4 (Scraper.mkReading 987 21 4))).
  - unfold Scraper.config_ok, nul_free. simpl.
    repeat split; [repeat constructor; discriminate..|lia].
  - lia.
  - repeat (apply Forall_cons_2;
            [unfold Scraper.reading_ok, int8_range; simpl; lia|]).
    apply Forall_nil_2.
Defined.

(** * The pins of port A *)

Lemma testbit_uint8 x k :
  0 <= k -> Z.testbit (uint8 x) k = (k <? 8) && Z.testbit x k.
Proof.
  intros Hk. unfold uint8. destruct (Z.ltb_spec k 8).
  - now rewrite Z.mod_pow2_bits_low by lia.
  - now rewrite Z.mod_pow2_bits_high by lia.
Qed.

Lemma testbit_BV n k : 0 <= n -> Z.testbit (Pins.BV n) k = (k =? n).
Proof.
  intros Hn. unfold Pins.BV. rewrite Z.shiftl_1_l.
  rewrite Z.pow2_bits_eqb by lia. apply Z.eqb_sym.
Qed.

Lemma testbit_reg8_high reg k : 0 <= reg < 256 -> 8 <= k -> Z.testbit reg k = false.
Proof.
  intros Hr Hk. rewrite <- (Z.mod_small reg (2 ^ 8)) by (simpl; lia).
  apply Z.mod_pow2_bits_high. lia.
Qed.

Lemma uint8_bounds x : 0 <= uint8 x < 256.
Proof. unfold uint8. apply Z.mod_pos_bound. reflexivity. Qed.

Lemma testbit_reg_or reg n k :
  0 <= reg < 256 -> 0 <= n < 8 -> 0 <= k ->
  Z.testbit (Pins.reg_or reg (Pins.BV n)) k = Z.testbit reg k || (k =? n).
Proof.
  intros Hr Hn Hk. unfold Pins.reg_or.
  rewrite testbit_uint8, Z.lor_spec, testbit_BV by lia.
  destruct (Z.ltb_spec k 8); [reflexivity|].
  rewrite (testbit_reg8_high reg k) by lia.
  destruct (Z.eqb_spec k n); [lia|reflexivity].
Qed.

Lemma testbit_reg_and_not reg n k :
  0 <= reg < 256 -> 0 <= n < 8 -> 0 <= k ->
  Z.testbit (Pins.reg_and_not reg (Pins.BV n)) k =
  Z.testbit reg k && negb (k =? n).
Proof.
  intros Hr Hn Hk. unfold Pins.reg_and_not.
  rewrite testbit_uint8, Z.land_spec, Z.lnot_spec, testbit_BV by lia.
  destruct (Z.ltb_spec k 8); [reflexivity|].
  now rewrite (testbit_reg8_high reg k) by lia.
Qed.

Lemma reg_and_not_or reg n :
  0 <= reg < 256 -> 0 <= n < 8 ->
  Pins.reg_and_not (Pins.reg_or reg (Pins.BV n)) (Pins.BV n) =
  Pins.reg_and_not reg (Pins.BV n).
Proof.
  intros Hr Hn. apply Z.bits_inj'. intros k Hk.
  rewrite !testbit_reg_and_not, testbit_reg_or
    by first [lia | apply uint8_bounds].
  destruct (Z.testbit reg k), (k =? n); reflexivity.
Qed.

Lemma reg_and_not_idem reg n :
  0 <= reg < 256 -> 0 <= n < 8 ->
  Pins.reg_and_not (Pins.reg_and_not reg (Pins.BV n)) (Pins.BV n) =
  Pins.reg_and_not reg (Pins.BV n).
Proof.
  intros Hr Hn. apply Z.bits_inj'. intros k Hk.
  rewrite !testbit_reg_and_not by first [lia | apply uint8_bounds].
  destruct (Z.testbit reg k), (k =? n); reflexivity.
Qed.

Lemma EN_PIN_range : 0 <= Pins.EN_PIN < 8.
Proof. unfold Pins.EN_PIN. lia. Qed.

Lemma isr_after_isr io :
  0 <= Pins.DDRA io < 256 ->
  Pins.EXT_INT0_vect (Pins.EXT_INT0_vect io) = Pins.EXT_INT0_vect io.
Proof.
  intros H. unfold Pins.EXT_INT0_vect, Pins.REG_ENABLE. cbn.
  now rewrite reg_and_not_idem by (assumption || apply EN_PIN_range).
Qed.

Lemma isr_iter n io :
  0 <= Pins.DDRA io < 256 ->
  Nat.iter (S n) Pins.EXT_INT0_vect io = Pins.EXT_INT0_vect io.
Proof.
  intros H. induction n as [|n IH]; [reflexivity|].
  change (Nat.iter (S (S n)) Pins.EXT_INT0_vect io)
    with (Pins.EXT_INT0_vect (Nat.iter (S n) Pins.EXT_INT0_vect io)).
  rewrite IH. now apply isr_after_isr.
Qed.

Lemma isr_iter_ports n io :
  Pins.PORTA (Nat.iter n Pins.EXT_INT0_vect io) = Pins.PORTA io /\
  Pins.GIMSK (Nat.iter n Pins.EXT_INT0_vect io) = Pins.GIMSK io /\
  (0 <= Pins.DDRA io < 256 ->
   0 <= Pins.DDRA (Nat.iter n Pins.EXT_INT0_vect io) < 256).
Proof.
  induction n as [|n (IH1 & IH2 & IH3)]; [now repeat split|].
  cbn [Nat.iter]. repeat split; try assumption; apply uint8_bounds.
Qed.

Lemma isr_after_disable_iter n io :
  0 <= Pins.DDRA io < 256 ->
  Pins.DDRA (Pins.EXT_INT0_vect
               (Pins.REG_DISABLE (Nat.iter n Pins.EXT_INT0_vect io))) =
  Pins.reg_and_not (Pins.DDRA io) (Pins.BV Pins.EN_PIN).
Proof.
  intros H. cbn.
  destruct (isr_iter_ports n io) as (_ & _ & Hr).
  rewrite reg_and_not_or by (auto using EN_PIN_range).
  destruct n as [|n]; [reflexivity|].
  rewrite isr_iter by assumption. cbn.
  now rewrite reg_and_not_idem by (assumption || apply EN_PIN_range).
Qed.

(** X13: the sleep of MODE_BOOSTOFF always resumes with the regulator
    enabled.  However often the level-triggered interrupt ran, before the
    regulator was switched off and during the sleep (at least once, or the
    CPU would not have woken up), [DDRA] on resume is the [DDRA] from
    before the sleep with bit [EN_PIN] cleared: the pin of the temperature
    sensor and every other pin keep their direction, [PORTA] is untouched,
    and the external interrupt is masked again ([GIMSK] = 0). *)
Theorem sleep_boostoff_resumes_enabled (INT0 : Z) (before during : nat)
    (io : Pins.ports) :
  Pins.ports_ok io -> (1 <= during)%nat ->
  let io' := Pins.sleep_boostoff INT0 before during io in
  Pins.DDRA io' = Pins.reg_and_not (Pins.DDRA io) (Pins.BV Pins.EN_PIN) /\
  Z.testbit (Pins.DDRA io') Pins.EN_PIN = false /\
  (forall k, 0 <= k -> k <> Pins.EN_PIN ->
     Z.testbit (Pins.DDRA io') k = Z.testbit (Pins.DDRA io) k) /\
  Pins.PORTA io' = Pins.PORTA io /\
  Pins.GIMSK io' = 0 /\
  Pins.ports_ok io'.
Proof.
  intros (Hd & Hp & Hg) Hdur io'.
  assert (Pins.DDRA io' =
          Pins.reg_and_not (Pins.DDRA io) (Pins.BV Pins.EN_PIN)) as E.
  { unfold io', Pins.sleep_boostoff. cbn [Pins.DDRA].
    destruct during as [|n]; [lia|].
    set (io1 := Pins.mkPorts (Pins.DDRA io) (Pins.PORTA io)
                  (Pins.reg_or (Pins.GIMSK io) (Pins.BV INT0))).
    rewrite isr_iter.
    - apply (isr_after_disable_iter before io1). exact Hd.
    - cbn. apply uint8_bounds. }
  split; [exact E|]. rewrite E.
  split; [|split; [|split; [|split]]].
  - rewrite testbit_reg_and_not
      by first [assumption | apply EN_PIN_range | (unfold Pins.EN_PIN; lia)].
    rewrite Z.eqb_refl. apply andb_false_r.
  - intros k Hk Hne.
    rewrite testbit_reg_and_not
      by first [assumption | apply EN_PIN_range].
    destruct (Z.eqb_spec k Pins.EN_PIN); [contradiction|apply andb_true_r].
  - unfold io', Pins.sleep_boostoff. cbn [Pins.PORTA].
    destruct (isr_iter_ports during
                (Pins.REG_DISABLE
                   (Nat.iter before Pins.EXT_INT0_vect
                      (Pins.mkPorts (Pins.DDRA io) (Pins.PORTA io)
                         (Pins.reg_or (Pins.GIMSK io) (Pins.BV INT0))))))
      as (-> & _ & _).
    cbn [Pins.REG_DISABLE Pins.PORTA].
    now destruct (isr_iter_ports before
                    (Pins.mkPorts (Pins.DDRA io) (Pins.PORTA io)
                       (Pins.reg_or (Pins.GIMSK io) (Pins.BV INT0))))
      as (-> & _ & _).
  - reflexivity.
  - assert (Pins.PORTA io' = Pins.PORTA io) as EP.
    { unfold io', Pins.sleep_boostoff. cbn [Pins.PORTA].
      destruct (isr_iter_ports during
                  (Pins.REG_DISABLE
                     (Nat.iter before Pins.EXT_INT0_vect
                        (Pins.mkPorts (Pins.DDRA io) (Pins.PORTA io)
                           (Pins.reg_or (Pins.GIMSK io) (Pins.BV INT0))))))
        as (-> & _ & _).
      cbn [Pins.REG_DISABLE Pins.PORTA].
      now destruct (isr_iter_ports before
                      (Pins.mkPorts (Pins.DDRA io) (Pins.PORTA io)
                         (Pins.reg_or (Pins.GIMSK io) (Pins.BV INT0))))
        as (-> & _ & _). }
    unfold Pins.ports_ok. rewrite E, EP.
    split; [apply uint8_bounds|]. split; [exact Hp|].
    unfold io', Pins.sleep_boostoff. cbn. lia.
Qed.

Lemma sleep_boostoff_resumes_enabled_witness :
  let io := Pins.mkPorts 136 0 0 in
  let io' := Pins.sleep_boostoff 6 1 3 io in
  Pins.DDRA io' = Pins.reg_and_not (Pins.DDRA io) (Pins.BV Pins.EN_PIN) /\
  Z.testbit (Pins.DDRA io') Pins.EN_PIN = false /\
  (forall k, 0 <= k -> k <> Pins.EN_PIN ->
     Z.testbit (Pins.DDRA io') k = Z.testbit (Pins.DDRA io) k) /\
  Pins.PORTA io' = Pins.PORTA io /\
  Pins.GIMSK io' = 0 /\
  Pins.ports_ok io'.
Proof.
  apply (sleep_boostoff_resumes_enabled 6 1 3 (Pins.mkPorts 136 0 0)).
  - unfold Pins.ports_ok. simpl. lia.
  - lia.
Defined.

Lemma VDD_PIN_range : 0 <= Pins.DS18B20_VDD_PIN < 8.
Proof. unfold Pins.DS18B20_VDD_PIN. lia. Qed.

(** X14: the pin set-up at the start of [main] leaves the regulator enable
    as an input driven to 0 (bit [EN_PIN] clear in [DDRA] and in [PORTA])
    and the supply of the temperature sensor as an output at 0 (bit
    [DS18B20_VDD_PIN] set in [DDRA], clear in [PORTA]); although the two
    pins share both registers, the other six bits of each are as they were
    found. *)
Theorem pin_setup_pins (io : Pins.ports) :
  Pins.ports_ok io ->
  let io' := Pins.pin_setup io in
  Z.testbit (Pins.DDRA io') Pins.EN_PIN = false /\
  Z.testbit (Pins.PORTA io') Pins.EN_PIN = false /\
  Z.testbit (Pins.DDRA io') Pins.DS18B20_VDD_PIN = true /\
  Z.testbit (Pins.PORTA io') Pins.DS18B20_VDD_PIN = false /\
  (forall k, 0 <= k -> k <> Pins.EN_PIN -> k <> Pins.DS18B20_VDD_PIN ->
     Z.testbit (Pins.DDRA io') k = Z.testbit (Pins.DDRA io) k /\
     Z.testbit (Pins.PORTA io') k = Z.testbit (Pins.PORTA io) k) /\
  Pins.GIMSK io' = Pins.GIMSK io /\
  Pins.ports_ok io'.
Proof.
  intros (Hd & Hp & Hg) io'.
  assert (forall k, 0 <= k ->
            Z.testbit (Pins.DDRA io') k =
              (Z.testbit (Pins.DDRA io) k && negb (k =? Pins.EN_PIN))
              || (k =? Pins.DS18B20_VDD_PIN)) as HD.
  { intros k Hk. unfold io', Pins.pin_setup. cbn.
    rewrite testbit_reg_or, testbit_reg_and_not
      by first [assumption | apply uint8_bounds | apply EN_PIN_range
               | apply VDD_PIN_range].
    reflexivity. }
  assert (forall k, 0 <= k ->
            Z.testbit (Pins.PORTA io') k =
              (Z.testbit (Pins.PORTA io) k && negb (k =? Pins.EN_PIN))
              && negb (k =? Pins.DS18B20_VDD_PIN)) as HP.
  { intros k Hk. unfold io', Pins.pin_setup. cbn.
    rewrite !testbit_reg_and_not
      by first [assumption | apply uint8_bounds | apply EN_PIN_range
               | apply VDD_PIN_range].
    reflexivity. }
  split; [|split; [|split; [|split; [|split; [|split]]]]].
  - rewrite HD by (unfold Pins.EN_PIN; lia).
    now rewrite Z.eqb_refl, andb_false_r.
  - rewrite HP by (unfold Pins.EN_PIN; lia).
    now rewrite Z.eqb_refl, andb_false_r.
  - rewrite HD by (unfold Pins.DS18B20_VDD_PIN; lia).
    now rewrite Z.eqb_refl, orb_true_r.
  - rewrite HP by (unfold Pins.DS18B20_VDD_PIN; lia).
    now rewrite Z.eqb_refl, andb_false_r.
  - intros k Hk H3 H7. rewrite HD, HP by exact Hk.
    destruct (Z.eqb_spec k Pins.EN_PIN); [contradiction|].
    destruct (Z.eqb_spec k Pins.DS18B20_VDD_PIN); [contradiction|].
    now rewrite !andb_true_r, orb_false_r.
  - reflexivity.
  - unfold Pins.ports_ok, io', Pins.pin_setup. cbn.
    repeat split; first [apply uint8_bounds | lia].
Qed.

Lemma pin_setup_pins_witness :
  let io' := Pins.pin_setup (Pins.mkPorts 255 255 0) in
  Z.testbit (Pins.DDRA io') Pins.EN_PIN = false /\
  Z.testbit (Pins.PORTA io') Pins.EN_PIN = false /\
  Z.testbit (Pins.DDRA io') Pins.DS18B20_VDD_PIN = true /\
  Z.testbit (Pins.PORTA io') Pins.DS18B20_VDD_PIN = false /\
  (forall k, 0 <= k -> k <> Pins.EN_PIN -> k <> Pins.DS18B20_VDD_PIN ->
     Z.testbit (Pins.DDRA io') k =
       Z.testbit (Pins.DDRA (Pins.mkPorts 255 255 0)) k /\
     Z.testbit (Pins.PORTA io') k =
       Z.testbit (Pins.PORTA (Pins.mkPorts 255 255 0)) k) /\
  Pins.GIMSK io' = Pins.GIMSK (Pins.mkPorts 255 255 0) /\
  Pins.ports_ok io'.
Proof.
  apply (pin_setup_pins (Pins.mkPorts 255 255 0)).
  unfold Pins.ports_ok. simpl. lia.
Defined.

(** * The room of the encoder *)

Lemma poke_Some buf i c b : poke buf i c = Some b -> (i < length buf)%nat.
Proof.
  unfold poke. destruct (Nat.ltb_spec i (length buf)); [auto|discriminate].
Qed.

Lemma poke_length buf i c b : poke buf i c = Some b -> length b = length buf.
Proof.
  unfold poke. destruct (i <? length buf)%nat; [|discriminate].
  intros [= <-]. apply length_insert.
Qed.

Lemma write_cstr_Some str : forall buf i b,
  write_cstr buf i str = Some b -> (i + length str < length buf)%nat.
Proof.
  induction str as [|c str IH]; intros buf i b H; simpl in *.
  - apply poke_Some in H. lia.
  - destruct (poke buf i c) as [buf'|] eqn:E; [|discriminate].
    apply IH in H. apply poke_length in E. lia.
Qed.

Lemma decides_bind {A B} (m : M A) (k : A -> M B) s (B1 B2 : Prop)
    (Q1 : A -> state -> list event -> Prop)
    (Q : B -> state -> list event -> Prop) :
  decides m s B1 Q1 ->
  (forall a s1 t1, Q1 a s1 t1 ->
     decides (k a) s1 B2 (fun b s2 t2 => Q b s2 (t1 ++ t2))) ->
  decides (bind m k) s (B1 /\ B2) Q.
Proof.
  intros [Hm1 Hm2] Hk. split.
  - intros [H1 H2]. destruct (Hm1 H1) as (a & s1 & t1 & Hm & HQ1).
    destruct (Hk a s1 t1 HQ1) as [Hk1 _].
    destruct (Hk1 H2) as (b & s2 & t2 & Hkk & HQ).
    exists b, s2, (t1 ++ t2). split; [|exact HQ].
    unfold bind. now rewrite Hm, Hkk.
  - intros Hne. unfold bind in Hne.
    destruct (m s) as [[[a s1] t1]|] eqn:Hm; [|contradiction].
    assert (B1) as H1 by (apply Hm2; discriminate).
    split; [exact H1|].
    destruct (Hm1 H1) as (a' & s1' & t1' & Hm' & HQ1).
    try rewrite Hm in Hm'.
    assert (a' = a /\ s1' = s1 /\ t1' = t1) as (-> & -> & ->)
      by (repeat split; congruence).
    destruct (Hk a s1 t1 HQ1) as [_ Hk2]. apply Hk2.
    destruct (k a s1) as [[[b s2] t2]|]; [discriminate|contradiction].
Qed.

Lemma decides_weaken {A} (m : M A) s (B : Prop)
    (Q Q' : A -> state -> list event -> Prop) :
  decides m s B Q -> (forall a s' t, Q a s' t -> Q' a s' t) ->
  decides m s B Q'.
Proof.
  intros [H1 H2] Himp. split; [|exact H2].
  intros HB. destruct (H1 HB) as (a & s' & t & Hm & HQ).
  exists a, s', t. auto.
Qed.

Lemma decides_iff {A} (m : M A) s (B B' : Prop)
    (Q : A -> state -> list event -> Prop) :
  decides m s B Q -> (B <-> B') -> decides m s B' Q.
Proof. intros [H1 H2] [Hf Hb]. split; auto. Qed.

Lemma decides_gets {A} (f : state -> A) s :
  decides (gets f) s True (fun a s' t => a = f s /\ s' = s /\ t = []).
Proof. split; [|auto]. intros _. now exists (f s), s, []. Qed.

Lemma decides_modify f s :
  decides (modify f) s True (fun _ s' t => s' = f s /\ t = []).
Proof. split; [|auto]. intros _. now exists tt, (f s), []. Qed.

Lemma decides_emit_ret {A} e (a : A) s :
  decides (emit e ;; ret a) s True (fun a' s' t => a' = a /\ s' = s /\ t = [e]).
Proof. split; [|auto]. intros _. now exists a, s, [e]. Qed.

Lemma decides_total {A} (m : M A) s (B : Prop)
    (Q : A -> state -> list event -> Prop) :
  (B -> runs_to m s Q) -> (m s <> None -> B) -> decides m s B Q.
Proof. intros H1 H2. split; assumption. Qed.

Lemma decides_put_char c s pre :
  holds s pre ->
  decides (put_char c) s (length pre < PACKETBUF_SIZE)%nat (fun _ s' t =>
    t = [] /\ frame s s' /\ holds s' (pre ++ [c])).
Proof.
  intros Hh. apply decides_total; [now apply put_char_ok|].
  intros Hne. destruct Hh as (Hp & Hsz & _). unfold put_char in Hne.
  destruct (poke (packetbuf s) (p s) c) eqn:E; [|contradiction].
  apply poke_Some in E. lia.
Qed.

Lemma decides_write_at_p str s pre :
  holds s pre ->
  decides (write_at_p str) s
    (length pre + length str < PACKETBUF_SIZE)%nat (fun _ s' t =>
    t = [] /\ frame s s' /\ pending s' pre str).
Proof.
  intros Hh. apply decides_total; [now apply write_at_p_ok|].
  intros Hne. destruct Hh as (Hp & Hsz & _). unfold write_at_p in Hne.
  destruct (write_cstr (packetbuf s) (p s) str) eqn:E; [|contradiction].
  apply write_cstr_Some in E. lia.
Qed.

Lemma decides_p_add_strlen s pre str :
  pending s pre str -> nul_free str ->
  decides p_add_strlen s True (fun _ s' t =>
    t = [] /\ frame s s' /\ holds s' (pre ++ str)).
Proof.
  intros Hp Hf. apply decides_total; [intros _; now apply p_add_strlen_ok|auto].
Qed.

Lemma decides_store_char s pre :
  holds s pre ->
  decides (store_char NUL) s (length pre < PACKETBUF_SIZE)%nat (fun _ s' t =>
    t = [] /\ frame s s' /\ pending s' pre []).
Proof.
  intros Hh. apply decides_total; [now apply store_char_ok|].
  intros Hne. destruct Hh as (Hp & Hsz & _). unfold store_char in Hne.
  destruct (poke (packetbuf s) (p s) NUL) eqn:E; [|contradiction].
  apply poke_Some in E. lia.
Qed.

Tactic Notation "dec_step" constr(lem) hyp(Hh) hyp(Hfr)
    "as" ident(s') ident(Hh') ident(Hfr') :=
  eapply decides_bind;
  [ eapply lem; first [exact Hh | idtac]
  | let Hf := fresh "Hf" in
    intros [] s' ? (-> & Hf & Hh');
    pose proof (frame_trans _ _ _ Hfr Hf) as Hfr';
    clear Hfr Hf Hh ].

Lemma compose_packet_decides i s :
  wf_state s ->
  decides (compose_packet i) s
    (length (packet_text (seqid s) (get_batt_voltage (adc i))
                         (temperature i) (power_mode s))
       < PACKETBUF_SIZE)%nat
    (fun _ s' t =>
       pending s' (packet_text (seqid s) (get_batt_voltage (adc i))
                               (temperature i) (power_mode s)) []).
Proof.
  intros Hwf. unfold compose_packet.
  set (mv := get_batt_voltage (adc i)).
  set (tmp := temperature i).
  eapply decides_iff.
  - eapply decides_bind; [apply decides_modify|].
    intros [] s0 t0 (-> & ->).
    assert (holds (set_p 0 s) []) as Hb by (now repeat split).
    assert (frame s (set_p 0 s)) as Hfr by (now repeat split).
    dec_step decides_write_at_p Hb Hfr as s1 Hb1 Hfr1.
    dec_step decides_p_add_strlen Hb1 Hfr1 as s2 Hb2 Hfr2;
      [now repeat constructor|].
    eapply decides_bind; [apply decides_gets|].
    intros c s2' t2 (-> & -> & ->).
    replace (seqid s2) with (seqid s) by (symmetry; apply Hfr2).
    dec_step decides_put_char Hb2 Hfr2 as s3 Hb3 Hfr3.
    dec_step decides_put_char Hb3 Hfr3 as s4 Hb4 Hfr4.
    unfold call_get_batt_voltage. cbv zeta. fold mv.
    eapply decides_bind; [apply decides_emit_ret|].
    intros v s4' t4 (-> & -> & ->).
    eapply decides_bind; [apply decides_modify|].
    intros [] s5 t5 (-> & ->).
    destruct Hfr4 as (E1 & E2 & _ & E4).
    assert (holds (set_batt_mv mv s4)
              ((([] ++ HOPS) ++ [seqid s]) ++ ["V"%char])) as Hb5
      by exact Hb4.
    assert (frame (set_batt_mv mv s4) (set_batt_mv mv s4)) as Hfr5
      by apply frame_refl.
    clear Hb4.
    dec_step decides_write_at_p Hb5 Hfr5 as s6 Hb6 Hfr6.
    dec_step decides_p_add_strlen Hb6 Hfr6 as s7 Hb7 Hfr7;
      [apply utoa_nul_free|].
    dec_step decides_put_char Hb7 Hfr7 as s8 Hb8 Hfr8.
    unfold call_get_temperature. fold tmp.
    eapply decides_bind; [apply decides_emit_ret|].
    intros v s8' t8 (-> & -> & ->).
    dec_step decides_write_at_p Hb8 Hfr8 as s9 Hb9 Hfr9.
    dec_step decides_p_add_strlen Hb9 Hfr9 as s10 Hb10 Hfr10;
      [apply dtostrf_nul_free|].
    dec_step decides_put_char Hb10 Hfr10 as s11 Hb11 Hfr11.
    dec_step decides_write_at_p Hb11 Hfr11 as s12 Hb12 Hfr12.
    dec_step decides_p_add_strlen Hb12 Hfr12 as s13 Hb13 Hfr13;
      [apply utoa_nul_free|].
    dec_step decides_put_char Hb13 Hfr13 as s14 Hb14 Hfr14.
    dec_step decides_write_at_p Hb14 Hfr14 as s15 Hb15 Hfr15.
    dec_step decides_p_add_strlen Hb15 Hfr15 as s16 Hb16 Hfr16;
      [apply utoa_nul_free|].
    dec_step decides_put_char Hb16 Hfr16 as s17 Hb17 Hfr17.
    eapply decides_bind; [apply decides_gets|].
    intros m s17' t17 (-> & -> & ->).
    replace (power_mode s17) with (power_mode s)
      by (destruct Hfr17 as (_ & _ & _ & ->); symmetry; exact E4).
    dec_step decides_write_at_p Hb17 Hfr17 as s18 Hb18 Hfr18.
    dec_step decides_p_add_strlen Hb18 Hfr18 as s19 Hb19 Hfr19;
      [apply utoa_nul_free|].
    dec_step decides_put_char Hb19 Hfr19 as s20 Hb20 Hfr20.
    dec_step decides_write_at_p Hb20 Hfr20 as s21 Hb21 Hfr21.
    dec_step decides_p_add_strlen Hb21 Hfr21 as s22 Hb22 Hfr22;
      [now repeat constructor|].
    dec_step decides_put_char Hb22 Hfr22 as s23 Hb23 Hfr23.
    eapply decides_weaken; [apply decides_store_char; exact Hb23|].
    intros [] s' t (_ & _ & Hp).
    match type of Hp with
    | pending _ ?l _ =>
        replace l with (packet_text (seqid s) mv tmp (power_mode s)) in Hp
          by (unfold packet_text; rewrite <- !app_assoc; reflexivity)
    end.
    exact Hp.
  - rewrite packet_text_length.
    pose proof (utoa_power_mode_length (power_mode s)) as Hlpm.
    assert (length HOPS = 1%nat) as HlH by reflexivity.
    assert (length NODE_ID = 3%nat) as HlN by reflexivity.
    assert (length (utoa WAKE_FREQ) = 1%nat) as HlW by reflexivity.
    assert (length (utoa TX_POWER_DBM) = 2%nat) as HlT by reflexivity.
    unfold PACKETBUF_SIZE. rewrite ?length_app. cbn [length].
    split; [intros; lia|intros; repeat split; lia].
Qed.

(** X15: the room of the encoder.  Whenever the digits of the voltage and
    the text of the temperature take at most 47 characters together,
    composing the packet keeps every store inside [packetbuf]: the other
    fields take 16 bytes and the NUL one, so the packet and its NUL take
    [17 + digits + text <= 64] bytes, and the buffer then starts with them.
    The voltage has at most five digits, so a temperature text of up to 42
    characters always fits, whatever the state and the ADC result. *)
Theorem compose_packet_room (s : state) (i : input) :
  wf_state s ->
  (length (utoa (get_batt_voltage (adc i))) +
   length (dtostrf_1_1 (temperature i)) <= 47)%nat ->
  let text := packet_text (seqid s) (get_batt_voltage (adc i))
                          (temperature i) (power_mode s) in
  exists s' t,
    compose_packet i s = Some (tt, s', t) /\
    length (packetbuf s') = PACKETBUF_SIZE /\
    take (length text + 1) (packetbuf s') = text ++ [NUL] /\
    (length text + 1 =
       17 + length (utoa (get_batt_voltage (adc i))) +
       length (dtostrf_1_1 (temperature i)))%nat /\
    (length text + 1 <= PACKETBUF_SIZE)%nat /\
    encode_packet i s = Some (until_nul text) /\
    ((length (dtostrf_1_1 (temperature i)) <= 42)%nat ->
     forall i' s0, wf_state s0 -> temperature i' = temperature i ->
       exists r, compose_packet i' s0 = Some r).
Proof.
  intros Hwf Hroom text.
  destruct (compose_packet_decides i s Hwf) as [Hyes _].
  fold text in Hyes.
  pose proof (packet_text_length (seqid s) (get_batt_voltage (adc i))
                (temperature i) (power_mode s)) as Hlen.
  fold text in Hlen.
  destruct Hyes as ([] & s' & t & Hrun & Hp);
    [rewrite Hlen; unfold PACKETBUF_SIZE; lia|].
  exists s', t. split; [exact Hrun|].
  split; [apply Hp|]. split.
  { destruct Hp as (_ & _ & Ht). etransitivity; [|exact Ht].
    f_equal. cbn [length]. lia. }
  split; [lia|]. split; [unfold PACKETBUF_SIZE; lia|]. split.
  - destruct (strlen_packetbuf_ok _ _ Hp)
      as (n & s2 & t2 & Hl & _ & _ & -> & Htake).
    unfold encode_packet. rewrite Hrun.
    unfold strlen_packetbuf in Hl.
    destruct (strlen_at (packetbuf s') 0) as [k|]; [|discriminate].
    match type of Htake with
    | take ?n _ = _ => assert (k = n) as -> by congruence
    end.
    now rewrite Htake.
  - intros H42 i' s0 Hwf0 Ht.
    destruct (compose_packet_ok i' s0 Hwf0) as (a & s1 & t1 & Hr & _).
    + unfold temp_fits, TEMP_TEXT_ROOM. now rewrite Ht.
    + now exists (a, s1, t1).
Qed.

Lemma compose_packet_room_witness :
  let text := packet_text (seqid initial_state) (get_batt_voltage 1023)
                          (-550) (power_mode initial_state) in
  exists s' t,
    compose_packet (mkInput 1023 (-550)) initial_state = Some (tt, s', t) /\
    length (packetbuf s') = PACKETBUF_SIZE /\
    take (length text + 1) (packetbuf s') = text ++ [NUL] /\
    (length text + 1 =
       17 + length (utoa (get_batt_voltage 1023)) +
       length (dtostrf_1_1 (-550)))%nat /\
    (length text + 1 <= PACKETBUF_SIZE)%nat /\
    encode_packet (mkInput 1023 (-550)) initial_state
      = Some (until_nul text) /\
    ((length (dtostrf_1_1 (-550)) <= 42)%nat ->
     forall i' s0, wf_state s0 -> temperature i' = -550 ->
       exists r, compose_packet i' s0 = Some r).
Proof.
  apply (compose_packet_room initial_state (mkInput 1023 (-550))).
  - reflexivity.
  - vm_compute. lia.
Defined.

Lemma sleep_boostoff_enabled_core INT0 before during io :
  Pins.ports_ok io -> (1 <= during)%nat ->
  Pins.DDRA (Pins.sleep_boostoff INT0 before during io) =
    Pins.reg_and_not (Pins.DDRA io) (Pins.BV Pins.EN_PIN) /\
  Pins.PORTA (Pins.sleep_boostoff INT0 before during io) = Pins.PORTA io /\
  Pins.GIMSK (Pins.sleep_boostoff INT0 before during io) = 0 /\
  Pins.ports_ok (Pins.sleep_boostoff INT0 before during io).
Proof.
  intros (Hd & Hp & Hg) Hdur.
  set (io1 := Pins.mkPorts (Pins.DDRA io) (Pins.PORTA io)
                (Pins.reg_or (Pins.GIMSK io) (Pins.BV INT0))).
  assert (Pins.DDRA (Pins.sleep_boostoff INT0 before during io) =
          Pins.reg_and_not (Pins.DDRA io) (Pins.BV Pins.EN_PIN)) as E.
  { unfold Pins.sleep_boostoff. cbn [Pins.DDRA]. fold io1.
    destruct during as [|n]; [lia|].
    rewrite isr_iter.
    - apply (isr_after_disable_iter before io1). exact Hd.
    - cbn. apply uint8_bounds. }
  assert (Pins.PORTA (Pins.sleep_boostoff INT0 before during io) =
          Pins.PORTA io) as EP.
  { unfold Pins.sleep_boostoff. cbn [Pins.PORTA]. fold io1.
    destruct (isr_iter_ports during
                (Pins.REG_DISABLE (Nat.iter before Pins.EXT_INT0_vect io1)))
      as (-> & _ & _).
    cbn [Pins.REG_DISABLE Pins.PORTA].
    now destruct (isr_iter_ports before io1) as (-> & _ & _). }
  split; [exact E|]. split; [exact EP|]. split; [reflexivity|].
  unfold Pins.ports_ok. rewrite E, EP.
  split; [apply uint8_bounds|]. split; [exact Hp|].
  unfold Pins.sleep_boostoff. cbn. lia.
Qed.

(** * fc-node2 *)

Lemma node2_loop_ports INT0 isr : forall io,
  Pins.ports_ok io ->
  Forall (fun bd : nat * nat => (1 <= snd bd)%nat) isr ->
  Pins.DDRA io = Pins.reg_and_not (Pins.DDRA io) (Pins.BV Pins.EN_PIN) ->
  let io' := Pins.node2_loop INT0 isr io in
  Pins.DDRA io' = Pins.DDRA io /\ Pins.PORTA io' = Pins.PORTA io /\
  (isr <> [] -> Pins.GIMSK io' = 0) /\ Pins.ports_ok io'.
Proof.
  induction isr as [|[b d] rest IH]; intros io Hok Hisr Hfix.
  - simpl. split; [reflexivity|]. split; [reflexivity|].
    split; [intros H; now elim H|exact Hok].
  - apply Forall_cons in Hisr as [Hd Hrest]. simpl in Hd.
    destruct (sleep_boostoff_enabled_core INT0 b d io Hok Hd)
      as (E1 & E2 & E3 & Hok1).
    cbn [Pins.node2_loop].
    destruct (IH (Pins.sleep_boostoff INT0 b d io) Hok1 Hrest)
      as (F1 & F2 & F3 & Hok2).
    { rewrite E1. symmetry. apply reg_and_not_idem;
        [apply Hok|apply EN_PIN_range]. }
    cbv zeta. rewrite F1, F2, E1, E2, <- Hfix.
    repeat split; try apply Hok2.
    intros _. destruct rest as [|x rest']; [exact E3|].
    apply F3. discriminate.
Qed.

(** X16: fc-node2 is awake only with its regulator enabled: after the
    set-up and any number of passes of its loop (the interrupt handler
    running at least once in each sleep), [DDRA] and [PORTA] are the values
    found at start-up with bit [EN_PIN] cleared, so the enable pin is an
    input reading 0 and no other pin was touched, and after the first pass
    the external interrupt is masked whenever the main sequence runs. *)
Theorem node2_regulator_enabled (INT0 : Z) (isr : list (nat * nat))
    (io : Pins.ports) :
  Pins.ports_ok io ->
  Forall (fun bd : nat * nat => (1 <= snd bd)%nat) isr ->
  let io' := Pins.node2_loop INT0 isr (Pins.node2_setup io) in
  Pins.DDRA io' = Pins.reg_and_not (Pins.DDRA io) (Pins.BV Pins.EN_PIN) /\
  Pins.PORTA io' = Pins.reg_and_not (Pins.PORTA io) (Pins.BV Pins.EN_PIN) /\
  Z.testbit (Pins.DDRA io') Pins.EN_PIN = false /\
  Z.testbit (Pins.PORTA io') Pins.EN_PIN = false /\
  (isr <> [] -> Pins.GIMSK io' = 0).
Proof.
  intros (Hd & Hp & Hg) Hisr io'.
  assert (Pins.ports_ok (Pins.node2_setup io)) as Hok0.
  { unfold Pins.ports_ok, Pins.node2_setup. cbn.
    repeat split; first [apply uint8_bounds | lia]. }
  destruct (node2_loop_ports INT0 isr (Pins.node2_setup io) Hok0 Hisr)
    as (E1 & E2 & E3 & _).
  { cbn. symmetry. apply reg_and_not_idem; [exact Hd|apply EN_PIN_range]. }
  fold io' in E1, E2, E3. rewrite E1, E2.
  unfold Pins.node2_setup, Pins.REG_ENABLE. cbn [Pins.DDRA Pins.PORTA].
  split; [reflexivity|]. split; [reflexivity|].
  rewrite !testbit_reg_and_not
    by first [assumption | apply EN_PIN_range | (unfold Pins.EN_PIN; lia)].
  rewrite Z.eqb_refl, !andb_false_r. auto.
Qed.

Lemma node2_regulator_enabled_witness :
  let io' := Pins.node2_loop 6 [(0, 1); (0, 2)]%nat
               (Pins.node2_setup (Pins.mkPorts 8 8 0)) in
  Pins.DDRA io' = Pins.reg_and_not (Pins.DDRA (Pins.mkPorts 8 8 0))
                    (Pins.BV Pins.EN_PIN) /\
  Pins.PORTA io' = Pins.reg_and_not (Pins.PORTA (Pins.mkPorts 8 8 0))
                     (Pins.BV Pins.EN_PIN) /\
  Z.testbit (Pins.DDRA io') Pins.EN_PIN = false /\
  Z.testbit (Pins.PORTA io') Pins.EN_PIN = false /\
  ([(0, 1); (0, 2)]%nat <> [] -> Pins.GIMSK io' = 0).
Proof.
  apply (node2_regulator_enabled 6 [(0, 1); (0, 2)]%nat (Pins.mkPorts 8 8 0)).
  - unfold Pins.ports_ok. simpl. lia.
  - repeat (apply Forall_cons_2; [simpl; lia|]). apply Forall_nil_2.
Defined.
